(** * BitSlow marketplace: the ledger API of [src/index.tsx]

    A shallow embedding of the HTTP handlers of the server and of the SQL
    statements they run, together with the properties of the ledger
    (ownership, transactions, listings, profile, registration, dispatch),
    and of the parts of the pages that decide what is sent to the server
    and what is shown (the sign-up form, the marketplace, the page buttons).

    Conventions of the embedding:
    - a table is the list of its rows in insertion (rowid) order;
    - a handler is a function from the database to a response and the
      database after the call (explicit state passing);
    - numeric columns and numeric request fields are integers ([Z]); text
      columns are [string]; a nullable column is an [option];
    - the wall clock ([new Date().toISOString()]) and the random source
      ([Math.random()]) are inputs of the handlers that use them;
    - the [try]/[catch] arms that answer 500 guard against failures of the
      runtime and of the database engine, which the embedding does not
      have: every statement of the model succeeds. *)

From Stdlib Require Import ZArith List String Ascii Bool Lia.
From Stdlib Require Import QArith Qround.
From Stdlib Require Import Permutation Sorted.
Import ListNotations.

Local Open Scope string_scope.
Local Open Scope list_scope.
Local Open Scope Z_scope.

(** ** The tables *)

Module Client.
Record t : Type := mk
  { id : Z;
    name : string;
    email : string;
    password : string;
    phone : option string;
    address : option string }.
End Client.

Module Coin.
Record t : Type := mk
  { coin_id : Z;
    value : Z;
    bit1 : Z;
    bit2 : Z;
    bit3 : Z;
    client_id : option Z }.
End Coin.

Module Tx.
Record t : Type := mk
  { id : Z;
    coin_id : Z;
    amount : Z;
    transaction_date : string;
    seller_id : option Z;
    buyer_id : Z }.
End Tx.

Record Database : Type := mkDatabase
  { clients : list Client.t;
    coins : list Coin.t;
    transactions : list Tx.t }.

(** Modelled from the spec: the schema (seed.ts) is not part of the sources.
    The spec gives every table a "unique, generated" key and the INSERT
    statements of the handlers never supply it, so the key of a new row is
    generated by the engine: one more than the largest key of the table. *)
Definition next_rowid (ids : list Z) : Z := 1 + fold_right Z.max 0 ids.

(** ** JavaScript values of type [number | null] *)

(** Truthiness: [null] and [0] are falsy. *)
Definition js_truthy (o : option Z) : bool :=
  match o with
  | Some n => negb (n =? 0)
  | None => false
  end.

(** [o || null]. *)
Definition js_or_null (o : option Z) : option Z :=
  if js_truthy o then o else None.

(** [o === n] for a number [n]. *)
Definition js_strict_eq (o : option Z) (n : Z) : bool :=
  match o with
  | Some m => m =? n
  | None => false
  end.

(** ** Responses *)

Module TxRow.
Record t : Type := mk
  { id : Z;
    coin_id : Z;
    amount : Z;
    transaction_date : string;
    seller_id : option Z;
    seller_name : option string;
    buyer_id : Z;
    buyer_name : string;
    bit1 : Z;
    bit2 : Z;
    bit3 : Z;
    value : Z }.
End TxRow.

Module CoinRow.
Record t : Type := mk
  { coin_id : Z;
    value : Z;
    bit1 : Z;
    bit2 : Z;
    bit3 : Z;
    client_id : option Z;
    owner_name : option string }.
End CoinRow.

Module HistoryRow.
Record t : Type := mk
  { id : Z;
    coin_id : Z;
    transaction_date : string;
    seller_name : option string;
    buyer_name : string }.
End HistoryRow.

Inductive Body : Type :=
| BText (text : string)
| BMessage (message : string)
| BLogin (message : string) (userId : Z) (userName : string)
| BTransactions (rows : list (TxRow.t * string)) (total page limit : Z)
| BCoins (rows : list (CoinRow.t * string)) (total page limit : Z)
| BProfile (totalTransactions totalBitSlow totalValue : Z)
| BHistory (history : list HistoryRow.t).

Record Response : Type := mkResponse
  { status : Z;
    body : Body }.

Definition json_message (code : Z) (msg : string) : Response :=
  mkResponse code (BMessage msg).

Definition method_not_allowed : Response :=
  mkResponse 405 (BText "Method Not Allowed").

(** ** /api/buy *)

(** [SELECT * FROM coins WHERE coin_id = ?] with [.get]: the first row. *)
Definition select_coin (db : Database) (coin_id : Z) : option Coin.t :=
  find (fun c => Coin.coin_id c =? coin_id) (coins db).

(** [UPDATE coins SET client_id = ? WHERE coin_id = ?]. *)
Definition update_owner (buyer_id coin_id : Z) (c : Coin.t) : Coin.t :=
  if Coin.coin_id c =? coin_id
  then Coin.mk (Coin.coin_id c) (Coin.value c)
               (Coin.bit1 c) (Coin.bit2 c) (Coin.bit3 c) (Some buyer_id)
  else c.

Definition update_coins_owner (buyer_id coin_id : Z) (db : Database)
  : Database :=
  mkDatabase (clients db)
             (map (update_owner buyer_id coin_id) (coins db))
             (transactions db).

(** [INSERT INTO transactions (coin_id, amount, transaction_date, seller_id,
    buyer_id) VALUES (?, ?, ?, ?, ?)]. *)
Definition insert_transaction (coin_id amount : Z) (transaction_date : string)
  (seller_id : option Z) (buyer_id : Z) (db : Database) : Database :=
  mkDatabase (clients db) (coins db)
    (transactions db ++
       [Tx.mk (next_rowid (map Tx.id (transactions db)))
              coin_id amount transaction_date seller_id buyer_id]).

(** The body of the handler after the method check; [now] is the value of
    [new Date().toISOString()]. *)
Definition buy (now : string) (coin_id buyer_id : Z) (db : Database)
  : Response * Database :=
  match select_coin db coin_id with
  | None => (json_message 404 "Coin not found", db)
  | Some coin =>
      if js_truthy (Coin.client_id coin)
         && js_strict_eq (Coin.client_id coin) buyer_id
      then (json_message 400 "This coin is already yours", db)
      else
        let seller_id := js_or_null (Coin.client_id coin) in
        let db1 := update_coins_owner buyer_id coin_id db in
        let amount := Coin.value coin in
        let db2 := insert_transaction coin_id amount now seller_id buyer_id db1 in
        (json_message 200 "Coin purchased successfully", db2)
  end.

(** ** /api/generate-coin *)

(** [Math.floor(r * 100) + 1] for a draw [r] of [Math.random()], taken as
    an exact rational. *)
Definition rand_bit (r : Q) : Z := Qfloor (r * 100) + 1.

Definition used_triples (db : Database) : list (Z * Z * Z) :=
  map (fun c => (Coin.bit1 c, Coin.bit2 c, Coin.bit3 c)) (coins db).

Definition isUsed (used : list (Z * Z * Z)) (b1 b2 b3 : Z) : bool :=
  existsb (fun c => let '(u1, u2, u3) := c in
                    (u1 =? b1) && (u2 =? b2) && (u3 =? b3)) used.

Definition max_attempts : Z := 10000.

(** The [do ... while] loop.  [rnd] is the sequence of the values returned
    by [Math.random()], [k] the number of values consumed so far, [attempts]
    the counter of the source.  The result is the counter and the triple at
    the exit of the loop; [None] when the fuel runs out first. *)
Fixpoint draw_loop (rnd : nat -> Q) (used : list (Z * Z * Z))
  (fuel : nat) (attempts : Z) (k : nat) : option (Z * (Z * Z * Z)) :=
  match fuel with
  | O => None
  | S fuel' =>
      let b1 := rand_bit (rnd k) in
      let b2 := rand_bit (rnd (1 + k)%nat) in
      let b3 := rand_bit (rnd (2 + k)%nat) in
      let attempts' := attempts + 1 in
      if attempts' >? max_attempts then Some (attempts', (b1, b2, b3))
      else if isUsed used b1 b2 b3
           then draw_loop rnd used fuel' attempts' (3 + k)%nat
           else Some (attempts', (b1, b2, b3))
  end.

(** [INSERT INTO coins (value, bit1, bit2, bit3, client_id)
    VALUES (?, ?, ?, ?, NULL)]. *)
Definition insert_coin (value b1 b2 b3 : Z) (db : Database) : Database :=
  mkDatabase (clients db)
    (coins db ++
       [Coin.mk (next_rowid (map Coin.coin_id (coins db))) value b1 b2 b3 None])
    (transactions db).

(** The loop of the source leaves at the latest when the counter passes
    [max_attempts], so [max_attempts + 1] rounds of fuel are enough
    ([draw_loop_total]); the last arm is never taken. *)
Definition generateCoin (rnd : nat -> Q) (amount : Z) (db : Database)
  : Response * Database :=
  let used := used_triples db in
  match draw_loop rnd used (S (Z.to_nat max_attempts)) 0 0 with
  | Some (attempts, (b1, b2, b3)) =>
      if attempts >? max_attempts
      then (json_message 400 "No unique combinations remaining", db)
      else (json_message 201 "Coin generated successfully",
            insert_coin amount b1 b2 b3 db)
  | None => (json_message 500 "Error generating coin", db)
  end.

(** ** The SQL fragments of the read queries *)

(** [MAX(e)] over the rows of a sub-select: NULL on no row. *)
Definition sql_max (l : list Z) : option Z :=
  fold_right (fun x acc => match acc with
                           | None => Some x
                           | Some m => Some (Z.max x m)
                           end) None l.

(** [COUNT( * )]. *)
Definition sql_count {A : Type} (l : list A) : Z := Z.of_nat (List.length l).

(** [LIMIT ? OFFSET ?]: the engine treats a negative offset as 0 and a
    negative limit as no limit. *)
Definition sql_limit_offset {A : Type} (limit offset : Z) (l : list A)
  : list A :=
  let rest := skipn (Z.to_nat offset) l in
  if limit <? 0 then rest else firstn (Z.to_nat limit) rest.

(** [ORDER BY]: a stable insertion sort; [le x y] says that [x] may come
    before [y]. *)
Fixpoint insert_by {A : Type} (le : A -> A -> bool) (x : A) (l : list A)
  : list A :=
  match l with
  | [] => [x]
  | y :: l' => if le x y then x :: l else y :: insert_by le x l'
  end.

Definition sort_by {A : Type} (le : A -> A -> bool) (l : list A) : list A :=
  fold_right (insert_by le) [] l.

(** Text columns compare byte by byte. *)
Definition order_asc {A : Type} (key : A -> string) (x y : A) : bool :=
  String.leb (key x) (key y).

Definition order_desc {A : Type} (key : A -> string) (x y : A) : bool :=
  String.leb (key y) (key x).

(** [LIKE]: [%] matches any run of characters, [_] any one character, and
    the ASCII letters match without regard to case. *)
Definition ascii_fold (c : ascii) : ascii :=
  let n := N_of_ascii c in
  if ((65 <=? n) && (n <=? 90))%N then ascii_of_N (n + 32) else c.

Fixpoint like (pattern s : string) {struct pattern} : bool :=
  match pattern with
  | EmptyString => match s with EmptyString => true | String _ _ => false end
  | String p pattern' =>
      if Ascii.eqb p "%" then
        (fix any_run (s : string) : bool :=
           like pattern' s
           || match s with
              | EmptyString => false
              | String _ s' => any_run s'
              end) s
      else
        match s with
        | EmptyString => false
        | String c s' =>
            (Ascii.eqb p "_" || Ascii.eqb (ascii_fold p) (ascii_fold c))
            && like pattern' s'
        end
  end.

(** [x LIKE ?] on a nullable column: NULL is not a match. *)
Definition like_nullable (pattern : string) (o : option string) : bool :=
  match o with
  | Some s => like pattern s
  | None => false
  end.

(** A search parameter that is absent or empty is falsy. *)
Definition str_param (o : option string) : option string :=
  match o with
  | Some s => if (s =? "")%string then None else Some s
  | None => None
  end.

Definition client_with_id (db : Database) (i : Z) : list Client.t :=
  filter (fun c => Client.id c =? i) (clients db).

Definition coin_with_id (db : Database) (i : Z) : list Coin.t :=
  filter (fun c => Coin.coin_id c =? i) (coins db).

(** [LEFT JOIN clients seller ON t.seller_id = seller.id]. *)
Definition left_join_seller (db : Database) (t : Tx.t)
  : list (option Client.t) :=
  let matches := match Tx.seller_id t with
                 | Some i => client_with_id db i
                 | None => []
                 end in
  match matches with
  | [] => [None]
  | _ :: _ => map Some matches
  end.

(** ** /api/transactions *)

Module Query.
Record t : Type := mk
  { page : option Z;
    limit : option Z;
    startDate : option string;
    endDate : option string;
    minValue : option Z;
    maxValue : option Z;
    buyerName : option string;
    sellerName : option string;
    userId : option Z;
    coin_id : option Z }.
End Query.

(** The body of a POST request, and a request: each handler reads the
    fields it names. *)
Module JsonBody.
Record t : Type := mk
  { name : string;
    email : string;
    password : string;
    phone : option string;
    address : option string;
    coin_id : Z;
    buyer_id : Z;
    amount : Z }.
End JsonBody.

Record Request : Type := mkRequest
  { method : string;
    pathname : string;
    searchParams : Query.t;
    json : JsonBody.t }.

(** A row of [transactions t LEFT JOIN clients seller JOIN clients buyer
    JOIN coins c]. *)
Record JoinRow : Type := mkJoinRow
  { jr_t : Tx.t;
    jr_seller : option Client.t;
    jr_buyer : Client.t;
    jr_c : Coin.t }.

Definition tx_join (db : Database) : list JoinRow :=
  flat_map (fun t =>
    flat_map (fun seller =>
      flat_map (fun buyer =>
        map (fun c => mkJoinRow t seller buyer c)
            (coin_with_id db (Tx.coin_id t)))
        (client_with_id db (Tx.buyer_id t)))
      (left_join_seller db t))
    (transactions db).

Definition clause {A : Type} (o : option A) (p : A -> JoinRow -> bool)
  : list (JoinRow -> bool) :=
  match o with
  | Some a => [p a]
  | None => []
  end.

(** The list [whereClauses] with its parameters bound. *)
Definition whereClauses (q : Query.t) : list (JoinRow -> bool) :=
  clause (str_param (Query.startDate q))
         (fun d r => String.leb d (Tx.transaction_date (jr_t r)))
  ++ clause (str_param (Query.endDate q))
         (fun d r => String.leb (Tx.transaction_date (jr_t r)) d)
  ++ clause (Query.minValue q)
         (fun v r => v <=? Coin.value (jr_c r))
  ++ clause (Query.maxValue q)
         (fun v r => Coin.value (jr_c r) <=? v)
  ++ clause (str_param (Query.buyerName q))
         (fun n r => like ("%" ++ n ++ "%") (Client.name (jr_buyer r)))
  ++ clause (str_param (Query.sellerName q))
         (fun n r => like_nullable ("%" ++ n ++ "%")
                       (option_map Client.name (jr_seller r))).

(** [WHERE c1 AND c2 AND ...], or no WHERE at all on the empty list. *)
Definition whereSql (q : Query.t) (r : JoinRow) : bool :=
  forallb (fun p => p r) (whereClauses q).

Definition select_columns (r : JoinRow) : TxRow.t :=
  let t := jr_t r in
  let c := jr_c r in
  TxRow.mk (Tx.id t) (Tx.coin_id t) (Tx.amount t) (Tx.transaction_date t)
           (option_map Client.id (jr_seller r))
           (option_map Client.name (jr_seller r))
           (Client.id (jr_buyer r)) (Client.name (jr_buyer r))
           (Coin.bit1 c) (Coin.bit2 c) (Coin.bit3 c) (Coin.value c).

(** The rows of [selectQuery] before [LIMIT ? OFFSET ?]. *)
Definition selectQuery_all (q : Query.t) (db : Database) : list TxRow.t :=
  map select_columns
      (sort_by (order_desc (fun r => Tx.transaction_date (jr_t r)))
               (filter (whereSql q) (tx_join db))).

Definition countQuery (q : Query.t) (db : Database) : Z :=
  sql_count (filter (whereSql q) (tx_join db)).

Definition default (d : Z) (o : option Z) : Z :=
  match o with
  | Some z => z
  | None => d
  end.

Section Handlers.

(** The display identifier of bitslow.ts, the hashing and the comparison of
    bcryptjs: outside the sources, taken as they come. *)
Variable computeBitSlow : Z -> Z -> Z -> string.
Variable bcrypt_hash : string -> string.
Variable bcrypt_compare : string -> string -> bool.

Definition listTransactions (q : Query.t) (db : Database) : Response :=
  let page := default 1 (Query.page q) in
  let limit := default 15 (Query.limit q) in
  let offset := (page - 1) * limit in
  let rawTransactions := sql_limit_offset limit offset (selectQuery_all q db) in
  let total := countQuery q db in
  let enhancedTransactions :=
    map (fun tx => (tx, computeBitSlow (TxRow.bit1 tx) (TxRow.bit2 tx)
                                       (TxRow.bit3 tx)))
        rawTransactions in
  mkResponse 200 (BTransactions enhancedTransactions total page limit).

(** ** /api/register and /api/login *)

Definition select_client_by_email (db : Database) (email : string)
  : option Client.t :=
  find (fun c => (Client.email c =? email)%string) (clients db).

Definition insert_client (name email hashed : string)
  (phone address : option string) (db : Database) : Database :=
  mkDatabase
    (clients db ++
       [Client.mk (next_rowid (map Client.id (clients db)))
                  name email hashed phone address])
    (coins db) (transactions db).

Definition register (method name email password : string)
  (phone address : option string) (db : Database) : Response * Database :=
  if (method =? "POST")%string then
    match select_client_by_email db email with
    | Some _ => (json_message 400 "Email already exists.", db)
    | None =>
        let hashedPassword := bcrypt_hash password in
        (json_message 201 "Registration successful.",
         insert_client name email hashedPassword phone address db)
    end
  else (method_not_allowed, db).

Definition login (method email password : string) (db : Database)
  : Response :=
  if (method =? "POST")%string then
    match select_client_by_email db email with
    | None => json_message 404 "User not found."
    | Some user =>
        if bcrypt_compare password (Client.password user)
        then mkResponse 200 (BLogin "Login successful."
                                    (Client.id user) (Client.name user))
        else json_message 401 "Incorrect password."
    end
  else method_not_allowed.

(** ** /api/profile *)

(** [SELECT COUNT( * ) FROM transactions WHERE buyer_id = ? OR seller_id = ?]. *)
Definition totalTransactionsQuery (u : Z) (db : Database) : Z :=
  sql_count (filter (fun t => (Tx.buyer_id t =? u)
                              || js_strict_eq (Tx.seller_id t) u)
                    (transactions db)).

(** [t.id = (SELECT MAX(id) FROM transactions t2 WHERE t2.coin_id = ?)]. *)
Definition is_max_id_of_coin (db : Database) (coin_id : Z) (t : Tx.t) : bool :=
  match sql_max (map Tx.id
                   (filter (fun t2 => Tx.coin_id t2 =? coin_id)
                           (transactions db))) with
  | Some m => Tx.id t =? m
  | None => false
  end.

(** [coins c JOIN transactions t ON c.coin_id = t.coin_id WHERE ... AND
    t.buyer_id = ?], projected on the columns of the coin. *)
Definition userCoinsQuery (u : Z) (db : Database) : list Coin.t :=
  flat_map (fun c =>
    map (fun _ => c)
        (filter (fun t => (Coin.coin_id c =? Tx.coin_id t)
                          && is_max_id_of_coin db (Coin.coin_id c) t
                          && (Tx.buyer_id t =? u))
                (transactions db)))
    (coins db).

Definition profile (userId : option Z) (db : Database) : Response :=
  match userId with
  | None => json_message 400 "Missing userId parameter."
  | Some u =>
      let totalTransactions := totalTransactionsQuery u db in
      let rows := userCoinsQuery u db in
      let totalBitSlow := Z.of_nat (List.length rows) in
      let totalValue := fold_left (fun acc coin => acc + Coin.value coin) rows 0 in
      mkResponse 200 (BProfile totalTransactions totalBitSlow totalValue)
  end.

(** ** /api/coins *)

(** The sub-select of the owner name: the buyer of the transaction of the
    coin that sorts first by date, descending. *)
Definition owner_name (db : Database) (coin_id : Z) : option string :=
  let joined :=
    flat_map (fun t => map (fun buyer => (t, buyer))
                           (client_with_id db (Tx.buyer_id t)))
             (filter (fun t => Tx.coin_id t =? coin_id) (transactions db)) in
  match sort_by (order_desc (fun r => Tx.transaction_date (fst r))) joined with
  | [] => None
  | r :: _ => Some (Client.name (snd r))
  end.

Definition listCoins (q : Query.t) (db : Database) : Response :=
  let page := default 1 (Query.page q) in
  let limit := default 30 (Query.limit q) in
  let offset := (page - 1) * limit in
  let rows :=
    sql_limit_offset limit offset
      (map (fun c => CoinRow.mk (Coin.coin_id c) (Coin.value c)
                       (Coin.bit1 c) (Coin.bit2 c) (Coin.bit3 c)
                       (Coin.client_id c) (owner_name db (Coin.coin_id c)))
           (sort_by (fun x y => Coin.coin_id x <=? Coin.coin_id y) (coins db))) in
  let coins' :=
    map (fun coin => (coin, computeBitSlow (CoinRow.bit1 coin)
                              (CoinRow.bit2 coin) (CoinRow.bit3 coin))) rows in
  mkResponse 200 (BCoins coins' (sql_count (coins db)) page limit).

(** ** /api/coin-history *)

Definition history_join (db : Database)
  : list (Tx.t * option Client.t * Client.t) :=
  flat_map (fun t =>
    flat_map (fun seller =>
      map (fun buyer => (t, seller, buyer))
          (client_with_id db (Tx.buyer_id t)))
      (left_join_seller db t))
    (transactions db).

Definition history_columns (r : Tx.t * option Client.t * Client.t)
  : HistoryRow.t :=
  let '(t, seller, buyer) := r in
  HistoryRow.mk (Tx.id t) (Tx.coin_id t) (Tx.transaction_date t)
                (option_map Client.name seller) (Client.name buyer).

Definition history_rows (coin_id : Z) (db : Database) : list HistoryRow.t :=
  map history_columns
      (sort_by (order_asc (fun r => Tx.transaction_date (fst (fst r))))
               (filter (fun r => Tx.coin_id (fst (fst r)) =? coin_id)
                       (history_join db))).

Definition coinHistory (method : string) (coin_id : option Z) (db : Database)
  : Response :=
  if negb (method =? "GET")%string then method_not_allowed
  else
    match coin_id with
    | None => json_message 400 "Missing coin_id parameter"
    | Some c => mkResponse 200 (BHistory (history_rows c db))
    end.

(** ** The routes *)

Definition route_buy (now : string) (req : Request) (db : Database)
  : Response * Database :=
  if negb (method req =? "POST")%string then (method_not_allowed, db)
  else buy now (JsonBody.coin_id (json req)) (JsonBody.buyer_id (json req)) db.

Definition route_generate_coin (rnd : nat -> Q) (req : Request)
  (db : Database) : Response * Database :=
  if negb (method req =? "POST")%string then (method_not_allowed, db)
  else generateCoin rnd (JsonBody.amount (json req)) db.

(** The table [routes] and its lookup by [url.pathname]; [None] when the
    path is not a key of the table: the request is then one for the
    frontend and its assets, which are not part of the ledger API. *)
Definition fetch (now : string) (rnd : nat -> Q) (req : Request)
  (db : Database) : option (Response * Database) :=
  let b := json req in
  let q := searchParams req in
  let path := pathname req in
  if (path =? "/api/register")%string then
    Some (register (method req) (JsonBody.name b) (JsonBody.email b)
                   (JsonBody.password b) (JsonBody.phone b)
                   (JsonBody.address b) db)
  else if (path =? "/api/transactions")%string then
    Some (listTransactions q db, db)
  else if (path =? "/api/login")%string then
    Some (login (method req) (JsonBody.email b) (JsonBody.password b) db, db)
  else if (path =? "/api/profile")%string then
    Some (profile (Query.userId q) db, db)
  else if (path =? "/api/coins")%string then
    Some (listCoins q db, db)
  else if (path =? "/api/buy")%string then
    Some (route_buy now req db)
  else if (path =? "/api/generate-coin")%string then
    Some (route_generate_coin rnd req db)
  else if (path =? "/api/coin-history")%string then
    Some (coinHistory (method req) (Query.coin_id q) db, db)
  else None.

End Handlers.

(** ** Sequences of mutations *)

Inductive Op : Type :=
| OpBuy (now : string) (coin_id buyer_id : Z)
| OpGenerate (rnd : nat -> Q) (amount : Z).

Definition run_op (o : Op) (db : Database) : Database :=
  match o with
  | OpBuy now coin_id buyer_id => snd (buy now coin_id buyer_id db)
  | OpGenerate rnd amount => snd (generateCoin rnd amount db)
  end.

Definition run_ops (ops : list Op) (db : Database) : Database :=
  fold_left (fun d o => run_op o d) ops db.

(** ** The notions of the specification *)

(** The most recent transaction of a coin is the one with the largest id,
    as in the profile query ("the latest transaction per coin"). *)
Definition latest_tx (txs : list Tx.t) (coin_id : Z) : option Tx.t :=
  fold_left (fun acc t =>
               if Tx.coin_id t =? coin_id then
                 match acc with
                 | None => Some t
                 | Some a => if Tx.id a <? Tx.id t then Some t else acc
                 end
               else acc) txs None.

(** The owner of every coin is the buyer of its most recent transaction,
    and nobody when it has no transaction. *)
Definition owner_invariant (db : Database) : Prop :=
  forall c, In c (coins db) ->
    Coin.client_id c
    = option_map Tx.buyer_id (latest_tx (transactions db) (Coin.coin_id c)).

(** [coin_id] of a transaction is a reference to a coin. *)
Definition tx_refs_coins (db : Database) : Prop :=
  forall t, In t (transactions db) ->
    exists c, In c (coins db) /\ Coin.coin_id c = Tx.coin_id t.

(** [buyer_id] of a transaction is a reference to a client. *)
Definition tx_refs_buyers (db : Database) : Prop :=
  forall t, In t (transactions db) ->
    exists b, In b (clients db) /\ Client.id b = Tx.buyer_id t.

(** The keys of the tables are unique. *)
Definition client_keys_unique (db : Database) : Prop :=
  NoDup (map Client.id (clients db)).

Definition coin_keys_unique (db : Database) : Prop :=
  NoDup (map Coin.coin_id (coins db)).

Definition tx_keys_unique (db : Database) : Prop :=
  NoDup (map Tx.id (transactions db)).

(** The [i]-th triple drawn by the generator (from 0). *)
Definition draw_triple (rnd : nat -> Q) (i : nat) : Z * Z * Z :=
  (rand_bit (rnd (3 * i)%nat),
   rand_bit (rnd (1 + 3 * i)%nat),
   rand_bit (rnd (2 + 3 * i)%nat)).

Definition triple_used (used : list (Z * Z * Z)) (t : Z * Z * Z) : bool :=
  let '(b1, b2, b3) := t in isUsed used b1 b2 b3.


Definition find_client (db : Database) (i : Z) : option Client.t :=
  find (fun c => Client.id c =? i) (clients db).

Definition seller_of (db : Database) (t : Tx.t) : option Client.t :=
  match Tx.seller_id t with
  | Some i => find_client db i
  | None => None
  end.


(** A coin is owned by a user when its most recent transaction has the user
    as buyer. *)
Definition owned_by (db : Database) (u : Z) (c : Coin.t) : bool :=
  match latest_tx (transactions db) (Coin.coin_id c) with
  | Some t => Tx.buyer_id t =? u
  | None => false
  end.




(** The history entry of a transaction whose buyer is a client: the names
    of the seller and of the buyer resolved. *)
Definition history_entry (db : Database) (t : Tx.t) : list HistoryRow.t :=
  match find_client db (Tx.buyer_id t) with
  | Some b =>
      [HistoryRow.mk (Tx.id t) (Tx.coin_id t) (Tx.transaction_date t)
                     (option_map Client.name (seller_of db t))
                     (Client.name b)]
  | None => []
  end.

(** The line of the history modal of the marketplace page:
    [entry.seller_name ? `${entry.seller_name} -> ` : "Original Issuer -> "]
    followed by the name of the buyer (the arrow is U+2192 in the page). *)
Definition seller_label (entry : HistoryRow.t) : string :=
  match HistoryRow.seller_name entry with
  | Some s => if (s =? "")%string then "Original Issuer → " else s ++ " → "
  | None => "Original Issuer → "
  end.

Definition history_line (entry : HistoryRow.t) : string :=
  seller_label entry ++ HistoryRow.buyer_name entry.

(** Projections of a response. *)
Definition response_total (r : Response) : option Z :=
  match body r with
  | BTransactions _ total _ _ => Some total
  | _ => None
  end.

Definition response_transactions (r : Response) : list TxRow.t :=
  match body r with
  | BTransactions rows _ _ _ => map fst rows
  | _ => []
  end.

Definition response_history (r : Response) : list HistoryRow.t :=
  match body r with
  | BHistory h => h
  | _ => []
  end.


Definition date_asc (x y : HistoryRow.t) : Prop :=
  String.leb (HistoryRow.transaction_date x) (HistoryRow.transaction_date y)
  = true.


(** The same filters with another page and limit. *)
Definition set_paging (page limit : option Z) (q : Query.t) : Query.t :=
  Query.mk page limit (Query.startDate q) (Query.endDate q)
           (Query.minValue q) (Query.maxValue q)
           (Query.buyerName q) (Query.sellerName q)
           (Query.userId q) (Query.coin_id q).


(** ** Sample data *)

(** The coin of the example of the spec: value 500, triple (3,77,42),
    not owned. *)
Definition sample_coin : Coin.t := Coin.mk 1 500 3 77 42 None.

Definition sample_client : Client.t :=
  Client.mk 7 "Ana" "ana@example.com" "$2a$10$hash" None None.

(** One coin, one client, no transaction. *)
Definition sample_db : Database := mkDatabase [sample_client] [sample_coin] [].

(** One coin and nothing else. *)
Definition lone_coin_db : Database := mkDatabase [] [sample_coin] [].

Definition noon : string := "2025-03-01T12:00:00.000Z".
Definition evening : string := "2025-03-01T18:00:00.000Z".

(** A random source that always returns one half: every triple drawn is
    (51,51,51). *)
Definition half (_ : nat) : Q := 1 # 2.

Definition no_filter : Query.t :=
  Query.mk None None None None None None None None None None.

Definition empty_json : JsonBody.t :=
  JsonBody.mk "" "" "" None None 0 0 0.

(** The sample coin bought by the client 7. *)
Definition sold_db : Database := snd (buy noon 1 7 sample_db).

(** The sample coin bought with a buyer id that no client has. *)
Definition stranger_db : Database := snd (buy noon 1 99 sample_db).


Definition no_display (_ _ _ : Z) : string := "".

(** ** What the requests keep *)

Definition emails_unique (db : Database) : Prop :=
  NoDup (map Client.email (clients db)).

(** No two coins carry the same triple of bits. *)
Definition triples_unique (db : Database) : Prop :=
  NoDup (used_triples db).

(** The columns of a coin that no statement of the handlers writes after
    the insertion of the coin. *)
Definition coin_core (c : Coin.t) : Z * Z * (Z * Z * Z) :=
  (Coin.coin_id c, Coin.value c, (Coin.bit1 c, Coin.bit2 c, Coin.bit3 c)).

(** ** The listing of the coins, read back *)

Definition response_coins (r : Response) : list CoinRow.t :=
  match body r with
  | BCoins rows _ _ _ => map fst rows
  | _ => []
  end.

Definition response_coins_total (r : Response) : option Z :=
  match body r with
  | BCoins _ total _ _ => Some total
  | _ => None
  end.

(** The row of the listing for a coin of the database. *)
Definition coin_row (db : Database) (c : Coin.t) : CoinRow.t :=
  CoinRow.mk (Coin.coin_id c) (Coin.value c)
             (Coin.bit1 c) (Coin.bit2 c) (Coin.bit3 c)
             (Coin.client_id c) (owner_name db (Coin.coin_id c)).



(** A date is later than the date of every transaction of a coin. *)
Definition later_than_coin_dates (db : Database) (coin_id : Z)
  (now : string) : Prop :=
  forall t, In t (transactions db) -> Tx.coin_id t = coin_id ->
    String.leb now (Tx.transaction_date t) = false.



(** ** The pages of the frontend *)

(** [a === b] for two values of type [number | null]. *)
Definition js_strict_eq_null (a b : option Z) : bool :=
  match a, b with
  | Some x, Some y => x =? y
  | None, None => true
  | _, _ => false
  end.

(** The last cell of a coin row of the marketplace: "Owned" when
    [currentUserId && coin.client_id === currentUserId], the Buy button
    otherwise. *)
Definition shows_buy_button (currentUserId : option Z) (coin : CoinRow.t)
  : bool :=
  negb (js_truthy currentUserId
        && js_strict_eq_null (CoinRow.client_id coin) currentUserId).

(** [handleBuy]: the body of the request to /api/buy, or no request when
    nobody is logged in. *)
Definition handleBuy_request (currentUserId : option Z) (coin : CoinRow.t)
  : option (Z * Z) :=
  match currentUserId with
  | Some u => if js_truthy currentUserId
              then Some (CoinRow.coin_id coin, u)
              else None
  | None => None
  end.

(** [handleBuy] after a 200: the update of the list of coins held by the
    page. *)
Definition mark_bought (currentUserId : option Z)
  (currentUserName : option string) (coin_id : Z)
  (coins : list (CoinRow.t * string)) : list (CoinRow.t * string) :=
  map (fun c =>
         if CoinRow.coin_id (fst c) =? coin_id
         then (CoinRow.mk (CoinRow.coin_id (fst c)) (CoinRow.value (fst c))
                          (CoinRow.bit1 (fst c)) (CoinRow.bit2 (fst c))
                          (CoinRow.bit3 (fst c))
                          currentUserId currentUserName,
               snd c)
         else c) coins.

(** The owner cell of a coin row and the seller cell of a transaction row:
    a name that is null or empty is replaced. *)
Definition name_or (fallback : string) (name : option string) : string :=
  match name with
  | Some s => if (s =? "")%string then fallback else s
  | None => fallback
  end.

Definition owner_cell (coin : CoinRow.t) : string :=
  name_or "Unowned" (CoinRow.owner_name coin).

Definition seller_cell (tx : TxRow.t) : string :=
  name_or "Original Issuer" (TxRow.seller_name tx).

(** The Prev and Next buttons of both listings. *)
Definition prev_disabled (page : Z) : bool := page <=? 1.

Definition next_disabled (page limit total : Z) : bool :=
  page * limit >=? total.

Definition prev_page (page : Z) : Z := Z.max 1 (page - 1).

Definition next_page (page : Z) : Z := page + 1.

(** The rows of a listing of coins as the page holds them, each with its
    display identifier. *)
Definition response_coin_rows (r : Response) : list (CoinRow.t * string) :=
  match body r with
  | BCoins rows _ _ _ => rows
  | _ => []
  end.

(** ** A database that uses every triple *)

Definition bits_range : list Z := map Z.of_nat (seq 1 100).

Definition all_triples_db : Database :=
  mkDatabase []
    (flat_map (fun b1 =>
       flat_map (fun b2 =>
         map (fun b3 => Coin.mk 0 0 b1 b2 b3 None) bits_range)
         bits_range)
       bits_range)
    [].

(** ** The sign-up form *)

(** A JavaScript string, as the sequence of its UTF-16 code units. *)
Definition JsString : Type := list N.

(** Regular expressions without captures, and their test against a whole
    string by derivatives: the pattern of the form is anchored at both
    ends, so [test] decides whether the string is in its language. *)
Inductive regex : Type :=
| Void
| Eps
| Class (p : N -> bool)
| Cat (r s : regex)
| Alt (r s : regex)
| Star (r : regex).

Fixpoint nullable (r : regex) : bool :=
  match r with
  | Void => false
  | Eps => true
  | Class _ => false
  | Cat r s => nullable r && nullable s
  | Alt r s => nullable r || nullable s
  | Star _ => true
  end.

Fixpoint deriv (c : N) (r : regex) : regex :=
  match r with
  | Void => Void
  | Eps => Void
  | Class p => if p c then Eps else Void
  | Cat r s =>
      if nullable r
      then Alt (Cat (deriv c r) s) (deriv c s)
      else Cat (deriv c r) s
  | Alt r s => Alt (deriv c r) (deriv c s)
  | Star r => Cat (deriv c r) (Star r)
  end.

Definition regex_test (r : regex) (s : JsString) : bool :=
  nullable (fold_left (fun r c => deriv c r) s r).

(** [r+]. *)
Definition plus (r : regex) : regex := Cat r (Star r).

(** The class [\s]: the white space and the line terminators of
    ECMAScript, all of them single code units. *)
Definition is_space (c : N) : bool :=
  ((9 <=? c) && (c <=? 13) || (c =? 32) || (c =? 160) || (c =? 5760)
   || (8192 <=? c) && (c <=? 8202) || (c =? 8232) || (c =? 8233)
   || (c =? 8239) || (c =? 8287) || (c =? 12288) || (c =? 65279))%N.

Definition at_sign : N := 64.
Definition full_stop : N := 46.

(** The class [[^\s@]]. *)
Definition not_space_nor_at (c : N) : bool :=
  negb (is_space c) && negb (c =? at_sign)%N.

(** [/^[^\s@]+@[^\s@]+\.[^\s@]+$/]. *)
Definition email_regex : regex :=
  Cat (plus (Class not_space_nor_at))
    (Cat (Class (fun c => (c =? at_sign)%N))
       (Cat (plus (Class not_space_nor_at))
          (Cat (Class (fun c => (c =? full_stop)%N))
             (plus (Class not_space_nor_at))))).

Definition validateEmail (email : JsString) : bool :=
  regex_test email_regex email.

Definition js_empty (s : JsString) : bool :=
  match s with
  | [] => true
  | _ :: _ => false
  end.

(** [handleSubmit] of the sign-up form up to the request: the message it
    shows, or the body it posts to the registration route. *)
Inductive SignUpOutcome : Type :=
| SignUpError (message : string)
| SignUpPost (name email password phone address : JsString).

Definition signup_submit (name email password phone address : JsString)
  : SignUpOutcome :=
  if js_empty name || js_empty email || js_empty password
  then SignUpError "Please fill in all required fields."
  else if negb (validateEmail email)
  then SignUpError "Please enter a valid email address."
  else if (List.length password <? 8)%nat
  then SignUpError "Password must be at least 8 characters long."
  else SignUpPost name email password phone address.

(** The language of a regular expression. *)
Inductive lang : regex -> JsString -> Prop :=
| lang_eps : lang Eps []
| lang_class (p : N -> bool) (c : N) : p c = true -> lang (Class p) [c]
| lang_cat (r s : regex) (u v : JsString) :
    lang r u -> lang s v -> lang (Cat r s) (u ++ v)
| lang_alt_l (r s : regex) (u : JsString) : lang r u -> lang (Alt r s) u
| lang_alt_r (r s : regex) (u : JsString) : lang s u -> lang (Alt r s) u
| lang_star_nil (r : regex) : lang (Star r) []
| lang_star_cons (r : regex) (u v : JsString) :
    lang r u -> lang (Star r) v -> lang (Star r) (u ++ v).

(** The shape of an email that the form accepts: something, an at sign,
    something, a full stop, something, where no something is empty or
    holds a space or an at sign. *)
Definition email_shape (email : JsString) : Prop :=
  exists local domain tld,
    email = local ++ at_sign :: domain ++ full_stop :: tld
    /\ local <> [] /\ domain <> [] /\ tld <> []
    /\ Forall (fun c => not_space_nor_at c = true) (local ++ domain ++ tld).

(** The code units of a string of ASCII characters. *)
Definition code_units (s : string) : JsString :=
  map N_of_ascii (list_ascii_of_string s).

(** ** The ledger in the order of time *)

(** Of two transactions of the same coin, the one with the larger id has
    the later date. *)
Definition chronological (db : Database) : Prop :=
  forall t1 t2,
    In t1 (transactions db) -> In t2 (transactions db) ->
    Tx.coin_id t1 = Tx.coin_id t2 -> Tx.id t1 < Tx.id t2 ->
    String.leb (Tx.transaction_date t2) (Tx.transaction_date t1) = false.


(** * Properties *)

(** ** Generated keys *)

Lemma next_rowid_gt (ids : list Z) (x : Z) : In x ids -> x < next_rowid ids.
Proof.
  unfold next_rowid.
  induction ids as [|y ids IH]; cbn [fold_right In]; [easy|].
  intros [->|Hin].
  - pose proof (Z.le_max_l x (fold_right Z.max 0 ids)). lia.
  - specialize (IH Hin).
    pose proof (Z.le_max_r y (fold_right Z.max 0 ids)). lia.
Qed.

Lemma next_rowid_fresh (ids : list Z) : ~ In (next_rowid ids) ids.
Proof.
  intros Hin. apply next_rowid_gt in Hin. lia.
Qed.

(** ** The three outcomes of /api/buy *)

Lemma buy_not_found now coin_id buyer_id db :
  select_coin db coin_id = None ->
  buy now coin_id buyer_id db = (json_message 404 "Coin not found", db).
Proof.
  intros H. unfold buy. now rewrite H.
Qed.

Lemma buy_conflict now coin_id buyer_id db coin :
  select_coin db coin_id = Some coin ->
  js_truthy (Coin.client_id coin)
  && js_strict_eq (Coin.client_id coin) buyer_id = true ->
  buy now coin_id buyer_id db
  = (json_message 400 "This coin is already yours", db).
Proof.
  intros H1 H2. unfold buy. now rewrite H1, H2.
Qed.

Lemma buy_purchase now coin_id buyer_id db coin :
  select_coin db coin_id = Some coin ->
  js_truthy (Coin.client_id coin)
  && js_strict_eq (Coin.client_id coin) buyer_id = false ->
  buy now coin_id buyer_id db
  = (json_message 200 "Coin purchased successfully",
     insert_transaction coin_id (Coin.value coin) now
       (js_or_null (Coin.client_id coin)) buyer_id
       (update_coins_owner buyer_id coin_id db)).
Proof.
  intros H1 H2. unfold buy. now rewrite H1, H2.
Qed.

Lemma conflict_test_false (owner : option Z) (buyer_id : Z) :
  owner <> Some buyer_id ->
  js_truthy owner && js_strict_eq owner buyer_id = false.
Proof.
  intros Hne. destruct owner as [o|]; simpl; [|reflexivity].
  destruct (Z.eqb_spec o buyer_id) as [->|_]; [congruence|].
  apply andb_false_r.
Qed.

Lemma conflict_test_true (buyer_id : Z) :
  buyer_id <> 0 ->
  js_truthy (Some buyer_id) && js_strict_eq (Some buyer_id) buyer_id = true.
Proof.
  intros Hnz. simpl. rewrite Z.eqb_refl, andb_true_r.
  destruct (Z.eqb_spec buyer_id 0); [contradiction|reflexivity].
Qed.

Lemma select_coin_id db coin_id coin :
  select_coin db coin_id = Some coin ->
  In coin (coins db) /\ Coin.coin_id coin = coin_id.
Proof.
  unfold select_coin. intros H. apply find_some in H.
  destruct H as [Hin Heq]. split; [assumption|]. now apply Z.eqb_eq.
Qed.

Lemma select_coin_updated buyer_id coin_id db coin :
  select_coin db coin_id = Some coin ->
  select_coin (update_coins_owner buyer_id coin_id db) coin_id
  = Some (update_owner buyer_id coin_id coin).
Proof.
  unfold select_coin, update_coins_owner. simpl.
  induction (coins db) as [|c l IH]; simpl; [discriminate|].
  unfold update_owner at 1.
  destruct (Z.eqb_spec (Coin.coin_id c) coin_id) as [Heq|Hne]; simpl.
  - rewrite Heq, Z.eqb_refl. intros [= ->].
    unfold update_owner. now rewrite Heq, Z.eqb_refl.
  - destruct (Z.eqb_spec (Coin.coin_id c) coin_id); [contradiction|].
    exact IH.
Qed.

(** When the recorded owner is a client id other than 0 the handler does
    what the comments of the source say. *)
Lemma buy_cases_nonzero_owner now coin_id buyer_id db coin :
  select_coin db coin_id = Some coin ->
  Coin.client_id coin <> Some 0 ->
  (Coin.client_id coin = Some buyer_id ->
   buy now coin_id buyer_id db
   = (json_message 400 "This coin is already yours", db))
  /\ (Coin.client_id coin <> Some buyer_id ->
      buy now coin_id buyer_id db
      = (json_message 200 "Coin purchased successfully",
         insert_transaction coin_id (Coin.value coin) now
           (Coin.client_id coin) buyer_id
           (update_coins_owner buyer_id coin_id db))).
Proof.
  intros Hsel Hnz. split; intros Hown.
  - apply (buy_conflict _ _ _ _ coin Hsel).
    rewrite Hown. apply conflict_test_true. congruence.
  - rewrite (buy_purchase _ _ _ _ coin Hsel (conflict_test_false _ _ Hown)).
    do 2 f_equal. unfold js_or_null.
    destruct (Coin.client_id coin) as [o|]; simpl; [|reflexivity].
    destruct (Z.eqb_spec o 0) as [->|_]; [congruence|reflexivity].
Qed.

(** X5: A buyer with an id other than 0 who has just bought a coin is refused
    the same coin: 400, and no second transaction. *)
Lemma buy_again_nonzero_buyer now now' coin_id buyer_id db coin :
  select_coin db coin_id = Some coin ->
  Coin.client_id coin <> Some buyer_id ->
  buyer_id <> 0 ->
  let db' := snd (buy now coin_id buyer_id db) in
  buy now' coin_id buyer_id db'
  = (json_message 400 "This coin is already yours", db').
Proof.
  intros Hsel Hown Hnz. cbv zeta.
  rewrite (buy_purchase _ _ _ _ coin Hsel (conflict_test_false _ _ Hown)).
  cbn [snd].
  apply (buy_conflict _ _ _ _ (update_owner buyer_id coin_id coin)).
  - apply (select_coin_updated buyer_id coin_id db coin Hsel).
  - destruct (select_coin_id _ _ _ Hsel) as [_ Hid].
    unfold update_owner. rewrite Hid, Z.eqb_refl. cbn [Coin.client_id].
    now apply conflict_test_true.
Qed.

(** The example of the spec: the coin of value 500 with the triple
    (3,77,42), not owned, is bought by the client 7. *)
Example buy_sample :
  buy noon 1 7 sample_db
  = (json_message 200 "Coin purchased successfully",
     mkDatabase [sample_client]
                [Coin.mk 1 500 3 77 42 (Some 7)]
                [Tx.mk 1 1 500 noon None 7]).
Proof. reflexivity. Qed.

(** C1 (the handler evaluated where it departs from the statement): on a
    database with one coin that nobody owns, a first purchase with buyer id
    0 makes 0 the recorded owner of the coin; a second purchase with the
    same buyer id, now equal to the owner of the coin, is not refused with
    400: it answers 200 and appends a second transaction, whose seller is
    null although the coin had an owner. *)
Theorem buy_twice_by_buyer_zero :
  let first := buy noon 1 0 lone_coin_db in
  let second := buy evening 1 0 (snd first) in
  status (fst first) = 200
  /\ option_map Coin.client_id (select_coin (snd first) 1) = Some (Some 0)
  /\ status (fst second) = 200
  /\ transactions (snd second)
     = [Tx.mk 1 1 500 noon None 0; Tx.mk 2 1 500 evening None 0].
Proof.
  cbv zeta. repeat split; reflexivity.
Qed.

(** C10: the purchase of an existing coin by any buyer id other than the
    current owner of the coin succeeds with status 200, whatever the table
    of clients holds: the coin gets the buyer id as owner, one transaction
    with that buyer id is appended, and the clients are not consulted or
    changed. *)
Theorem buy_accepts_any_buyer_id :
  forall (now : string) (db : Database) (coin_id buyer_id : Z) (coin : Coin.t),
    select_coin db coin_id = Some coin ->
    Coin.client_id coin <> Some buyer_id ->
    let resp := fst (buy now coin_id buyer_id db) in
    let db' := snd (buy now coin_id buyer_id db) in
    status resp = 200
    /\ coins db' = map (update_owner buyer_id coin_id) (coins db)
    /\ (exists coin', select_coin db' coin_id = Some coin'
                      /\ Coin.client_id coin' = Some buyer_id)
    /\ (exists t, transactions db' = transactions db ++ [t]
                  /\ Tx.coin_id t = coin_id
                  /\ Tx.buyer_id t = buyer_id)
    /\ clients db' = clients db.
Proof.
  intros now db coin_id buyer_id coin Hsel Hown. cbv zeta.
  rewrite (buy_purchase _ _ _ _ coin Hsel (conflict_test_false _ _ Hown)).
  cbn [fst snd status json_message]. repeat split.
  - exists (update_owner buyer_id coin_id coin). split.
    + apply (select_coin_updated buyer_id coin_id db coin Hsel).
    + destruct (select_coin_id _ _ _ Hsel) as [_ Hid].
      unfold update_owner. rewrite Hid, Z.eqb_refl. reflexivity.
  - eexists. cbn [insert_transaction transactions update_coins_owner].
    split; [reflexivity|]. split; reflexivity.
Qed.

Lemma buy_accepts_any_buyer_id_witness :
  select_coin lone_coin_db 1 = Some sample_coin
  /\ Coin.client_id sample_coin <> Some 99
  /\ status (fst (buy noon 1 99 lone_coin_db)) = 200
  /\ clients (snd (buy noon 1 99 lone_coin_db)) = [].
Proof.
  assert (H1 : select_coin lone_coin_db 1 = Some sample_coin) by reflexivity.
  assert (H2 : Coin.client_id sample_coin <> Some 99) by discriminate.
  pose proof (buy_accepts_any_buyer_id noon lone_coin_db 1 99 sample_coin H1 H2)
    as H.
  cbv zeta in H. destruct H as (Hs & _ & _ & _ & Hc).
  repeat split; assumption.
Defined.

(** ** The most recent transaction of a coin *)

Lemma latest_tx_snoc (txs : list Tx.t) (t : Tx.t) (coin_id : Z) :
  latest_tx (txs ++ [t]) coin_id
  = if Tx.coin_id t =? coin_id then
      match latest_tx txs coin_id with
      | None => Some t
      | Some a => if Tx.id a <? Tx.id t then Some t else Some a
      end
    else latest_tx txs coin_id.
Proof.
  unfold latest_tx. rewrite fold_left_app. cbn [fold_left].
  destruct (Tx.coin_id t =? coin_id); [|reflexivity].
  destruct (fold_left _ txs None); reflexivity.
Qed.

Lemma latest_tx_in (txs : list Tx.t) (coin_id : Z) (a : Tx.t) :
  latest_tx txs coin_id = Some a -> In a txs /\ Tx.coin_id a = coin_id.
Proof.
  induction txs as [|t txs IH] using rev_ind; [discriminate|].
  rewrite latest_tx_snoc.
  destruct (Z.eqb_spec (Tx.coin_id t) coin_id) as [Heq|Hne].
  - destruct (latest_tx txs coin_id) as [b|] eqn:Hb.
    + destruct (Tx.id b <? Tx.id t); intros [= <-].
      * split; [apply in_or_app; right; now left | assumption].
      * destruct (IH eq_refl) as [Hin Hc].
        split; [apply in_or_app; now left | assumption].
    + intros [= <-]. split; [apply in_or_app; right; now left | assumption].
  - intros H. destruct (IH H) as [Hin Hc].
    split; [apply in_or_app; now left | assumption].
Qed.

Lemma latest_tx_none (txs : list Tx.t) (coin_id : Z) :
  (forall t, In t txs -> Tx.coin_id t <> coin_id) ->
  latest_tx txs coin_id = None.
Proof.
  intros H. destruct (latest_tx txs coin_id) as [a|] eqn:Ha; [|reflexivity].
  apply latest_tx_in in Ha. destruct Ha as [Hin Hc].
  now elim (H a Hin).
Qed.

(** The transaction appended by a purchase is the most recent one of its
    coin, and leaves the most recent one of every other coin as it was. *)
Lemma latest_tx_appended (txs : list Tx.t) (t : Tx.t) (coin_id : Z) :
  Tx.id t = next_rowid (map Tx.id txs) ->
  latest_tx (txs ++ [t]) coin_id
  = if Tx.coin_id t =? coin_id then Some t else latest_tx txs coin_id.
Proof.
  intros Hid. rewrite latest_tx_snoc.
  destruct (Tx.coin_id t =? coin_id); [|reflexivity].
  destruct (latest_tx txs coin_id) as [a|] eqn:Ha; [|reflexivity].
  apply latest_tx_in in Ha. destruct Ha as [Hin _].
  assert (Hlt : Tx.id a < Tx.id t).
  { rewrite Hid. apply next_rowid_gt. now apply in_map. }
  apply Z.ltb_lt in Hlt. now rewrite Hlt.
Qed.

(** ** The states after a mutation *)

Lemma buy_database now coin_id buyer_id db :
  snd (buy now coin_id buyer_id db) = db
  \/ exists coin,
       select_coin db coin_id = Some coin
       /\ snd (buy now coin_id buyer_id db)
          = insert_transaction coin_id (Coin.value coin) now
              (js_or_null (Coin.client_id coin)) buyer_id
              (update_coins_owner buyer_id coin_id db).
Proof.
  unfold buy. destruct (select_coin db coin_id) as [coin|]; [|now left].
  destruct (js_truthy _ && js_strict_eq _ _); [now left|].
  right. now exists coin.
Qed.

Lemma generateCoin_database rnd amount db :
  snd (generateCoin rnd amount db) = db
  \/ exists b1 b2 b3,
       snd (generateCoin rnd amount db) = insert_coin amount b1 b2 b3 db.
Proof.
  unfold generateCoin.
  destruct (draw_loop _ _ _ _ _) as [[attempts [[b1 b2] b3]]|]; [|now left].
  destruct (attempts >? max_attempts); [now left|].
  right. now exists b1, b2, b3.
Qed.

Lemma update_owner_coin_id buyer_id coin_id c :
  Coin.coin_id (update_owner buyer_id coin_id c) = Coin.coin_id c.
Proof.
  unfold update_owner. now destruct (Coin.coin_id c =? coin_id).
Qed.

Lemma buy_keeps_refs now coin_id buyer_id db :
  tx_refs_coins db -> tx_refs_coins (snd (buy now coin_id buyer_id db)).
Proof.
  intros Hrefs.
  destruct (buy_database now coin_id buyer_id db) as [->|(coin & Hsel & ->)];
    [assumption|].
  destruct (select_coin_id _ _ _ Hsel) as [Hcin Hcid].
  intros t Hin. cbn [insert_transaction update_coins_owner transactions coins] in *.
  assert (Hold : exists c, In c (coins db) /\ Coin.coin_id c = Tx.coin_id t).
  { apply in_app_or in Hin. destruct Hin as [Hin|[<-|[]]].
    - now apply Hrefs.
    - exists coin. now split. }
  destruct Hold as (c & Hc & Hid).
  exists (update_owner buyer_id coin_id c). split.
  - now apply in_map.
  - now rewrite update_owner_coin_id.
Qed.

Lemma generateCoin_keeps_refs rnd amount db :
  tx_refs_coins db -> tx_refs_coins (snd (generateCoin rnd amount db)).
Proof.
  intros Hrefs.
  destruct (generateCoin_database rnd amount db) as [->|(b1 & b2 & b3 & ->)];
    [assumption|].
  intros t Hin. cbn [insert_coin transactions coins] in *.
  destruct (Hrefs t Hin) as (c & Hc & Hid).
  exists c. split; [apply in_or_app; now left | assumption].
Qed.

Lemma buy_keeps_owner_invariant now coin_id buyer_id db :
  owner_invariant db -> owner_invariant (snd (buy now coin_id buyer_id db)).
Proof.
  intros Hinv.
  destruct (buy_database now coin_id buyer_id db) as [->|(coin & Hsel & ->)];
    [assumption|].
  intros c' Hin. cbn [insert_transaction update_coins_owner transactions coins] in *.
  apply in_map_iff in Hin. destruct Hin as (c & <- & Hc).
  rewrite latest_tx_appended by reflexivity.
  rewrite update_owner_coin_id. cbn [Tx.coin_id].
  unfold update_owner. rewrite (Z.eqb_sym coin_id).
  destruct (Coin.coin_id c =? coin_id); [reflexivity|].
  now apply Hinv.
Qed.

Lemma generateCoin_keeps_owner_invariant rnd amount db :
  tx_refs_coins db ->
  owner_invariant db ->
  owner_invariant (snd (generateCoin rnd amount db)).
Proof.
  intros Hrefs Hinv.
  destruct (generateCoin_database rnd amount db) as [->|(b1 & b2 & b3 & ->)];
    [assumption|].
  intros c Hin. cbn [insert_coin transactions coins] in *.
  apply in_app_or in Hin. destruct Hin as [Hin|[<-|[]]]; [now apply Hinv|].
  cbn [Coin.client_id Coin.coin_id].
  rewrite latest_tx_none; [reflexivity|].
  intros t Ht Heq. destruct (Hrefs t Ht) as (c & Hc & Hid).
  apply (next_rowid_fresh (map Coin.coin_id (coins db))).
  rewrite <- Heq, <- Hid. now apply in_map.
Qed.

Lemma run_op_appends (o : Op) (db : Database) :
  exists new, transactions (run_op o db) = transactions db ++ new.
Proof.
  destruct o as [now coin_id buyer_id|rnd amount]; cbn [run_op].
  - destruct (buy_database now coin_id buyer_id db) as [->|(coin & _ & ->)].
    + exists []. now rewrite app_nil_r.
    + eexists. reflexivity.
  - destruct (generateCoin_database rnd amount db) as [->|(b1 & b2 & b3 & ->)];
      exists []; now rewrite app_nil_r.
Qed.

(** C2: from a state in which every transaction refers to a coin of the
    coins table and every coin is owned by the buyer of its most recent
    transaction (by nobody when it has none), every sequence of purchases
    and coin generations leads to a state with the same two properties, and
    the ledger of the final state is the ledger of the first one with
    transactions appended: none is changed or removed. *)
Theorem owner_invariant_preserved :
  forall (ops : list Op) (db : Database),
    tx_refs_coins db ->
    owner_invariant db ->
    owner_invariant (run_ops ops db)
    /\ tx_refs_coins (run_ops ops db)
    /\ exists new, transactions (run_ops ops db) = transactions db ++ new.
Proof.
  induction ops as [|o ops IH]; intros db Hrefs Hinv.
  - cbn. repeat split; try assumption. exists []. now rewrite app_nil_r.
  - cbn [run_ops fold_left]. fold (run_ops ops (run_op o db)).
    assert (Hstep : tx_refs_coins (run_op o db) /\ owner_invariant (run_op o db)).
    { destruct o as [now coin_id buyer_id|rnd amount]; cbn [run_op]; split.
      - now apply buy_keeps_refs.
      - now apply buy_keeps_owner_invariant.
      - now apply generateCoin_keeps_refs.
      - now apply generateCoin_keeps_owner_invariant. }
    destruct Hstep as [Hrefs' Hinv'].
    destruct (IH _ Hrefs' Hinv') as (H1 & H2 & new & H3).
    repeat split; try assumption.
    destruct (run_op_appends o db) as (new0 & H0).
    exists (new0 ++ new). now rewrite H3, H0, app_assoc.
Qed.

Lemma owner_invariant_preserved_witness :
  tx_refs_coins lone_coin_db
  /\ owner_invariant lone_coin_db
  /\ owner_invariant
       (run_ops [OpBuy noon 1 7; OpGenerate half 10; OpBuy evening 2 9]
                lone_coin_db).
Proof.
  assert (H1 : tx_refs_coins lone_coin_db) by (intros t []).
  assert (H2 : owner_invariant lone_coin_db)
    by (intros c [<-|[]]; reflexivity).
  repeat split; try assumption.
  apply (owner_invariant_preserved
           [OpBuy noon 1 7; OpGenerate half 10; OpBuy evening 2 9]
           lone_coin_db H1 H2).
Defined.

(** ** The generator of triples *)

Lemma rand_bit_range (r : Q) :
  (0 <= r)%Q -> (r < 1)%Q -> 1 <= rand_bit r <= 100.
Proof.
  intros H0 H1. unfold rand_bit.
  assert (Hlo : 0 <= Qfloor (r * 100)).
  { change 0 with (Qfloor 0). apply Qfloor_resp_le.
    apply Qmult_le_0_compat; [assumption|discriminate]. }
  assert (Hhi : Qfloor (r * 100) < 100).
  { rewrite Zlt_Qlt. eapply Qle_lt_trans; [apply Qfloor_le|].
    change (inject_Z 100) with (1 * 100)%Q.
    apply Qmult_lt_compat_r; [reflexivity|assumption]. }
  lia.
Qed.

Lemma isUsed_in (used : list (Z * Z * Z)) (b1 b2 b3 : Z) :
  isUsed used b1 b2 b3 = true <-> In (b1, b2, b3) used.
Proof.
  unfold isUsed. rewrite existsb_exists. split.
  - intros ([[u1 u2] u3] & Hin & Heq).
    apply andb_prop in Heq. destruct Heq as [Heq H3].
    apply andb_prop in Heq. destruct Heq as [H1 H2].
    apply Z.eqb_eq in H1, H2, H3. now subst.
  - intros Hin. exists (b1, b2, b3). split; [assumption|].
    now rewrite !Z.eqb_refl.
Qed.

(** The loop leaves before the fuel runs out, and where it leaves: either
    at the first triple of the sequence that collides with no coin, with
    the counter at most [max_attempts], or at [max_attempts + 1] after
    [max_attempts] collisions. *)
Lemma draw_loop_exit (rnd : nat -> Q) (used : list (Z * Z * Z)) :
  forall (fuel n : nat),
    Z.of_nat n <= max_attempts ->
    max_attempts + 1 <= Z.of_nat n + Z.of_nat fuel ->
    exists a t,
      draw_loop rnd used fuel (Z.of_nat n) (3 * n)%nat = Some (a, t)
      /\ ((a <= max_attempts
           /\ exists i, a = Z.of_nat (S i) /\ (n <= i)%nat
                /\ t = draw_triple rnd i
                /\ triple_used used t = false
                /\ forall j, (n <= j < i)%nat ->
                     triple_used used (draw_triple rnd j) = true)
          \/ (a = max_attempts + 1
              /\ forall j, (n <= j)%nat -> Z.of_nat j < max_attempts ->
                   triple_used used (draw_triple rnd j) = true)).
Proof.
  induction fuel as [|fuel IH]; intros n Hn Hfuel.
  - exfalso. lia.
  - cbn [draw_loop].
    destruct (Z.gtb_spec (Z.of_nat n + 1) max_attempts) as [Hgt|Hle].
    + do 2 eexists. split; [reflexivity|]. right. split; [lia|].
      intros j Hj Hlt. exfalso. lia.
    + fold (draw_triple rnd n).
      change (isUsed used (rand_bit (rnd (3 * n)%nat))
                (rand_bit (rnd (1 + 3 * n)%nat))
                (rand_bit (rnd (2 + 3 * n)%nat)))
        with (triple_used used (draw_triple rnd n)).
      destruct (triple_used used (draw_triple rnd n)) eqn:Hused.
      * replace (3 + 3 * n)%nat with (3 * S n)%nat by lia.
        replace (Z.of_nat n + 1) with (Z.of_nat (S n)) by lia.
        destruct (IH (S n)) as (a & t & Heq & Hcase); [lia|lia|].
        exists a, t. split; [exact Heq|].
        destruct Hcase as [(Ha & i & Hai & Hni & Ht & Hfree & Hbefore)
                          |(Ha & Hall)].
        -- left. split; [assumption|]. exists i.
           repeat split; try assumption; [lia|].
           intros j Hj. destruct (Nat.eq_dec j n) as [->|Hne];
             [assumption | apply Hbefore; lia].
        -- right. split; [assumption|].
           intros j Hj Hlt. destruct (Nat.eq_dec j n) as [->|Hne];
             [assumption | apply Hall; lia].
      * do 2 eexists. split; [reflexivity|]. left. split; [lia|].
        exists n. repeat split; try assumption; lia.
Qed.

Lemma draw_loop_total (rnd : nat -> Q) (used : list (Z * Z * Z)) :
  exists r, draw_loop rnd used (S (Z.to_nat max_attempts)) 0 0 = Some r.
Proof.
  destruct (draw_loop_exit rnd used (S (Z.to_nat max_attempts)) 0)
    as (a & t & Heq & _).
  - unfold max_attempts. lia.
  - unfold max_attempts. lia.
  - now exists (a, t).
Qed.

Lemma draw_triple_range (rnd : nat -> Q) (i : nat) :
  (forall k, (0 <= rnd k)%Q /\ (rnd k < 1)%Q) ->
  let '(b1, b2, b3) := draw_triple rnd i in
  1 <= b1 <= 100 /\ 1 <= b2 <= 100 /\ 1 <= b3 <= 100.
Proof.
  intros Hrnd. unfold draw_triple.
  repeat split; apply rand_bit_range; apply Hrnd.
Qed.




(** The generator on the sample coin: the first triple drawn from the
    constant source, (51,51,51), is free. *)
Example generateCoin_sample :
  generateCoin half 250 lone_coin_db
  = (json_message 201 "Coin generated successfully",
     mkDatabase [] [sample_coin; Coin.mk 2 250 51 51 51 None] []).
Proof. vm_compute. reflexivity. Qed.

(** The generator when the constant source only ever proposes the triple of
    an existing coin: 400 after the budget of attempts, nothing inserted. *)
Example generateCoin_exhausted_sample :
  let db := mkDatabase [] [Coin.mk 1 500 51 51 51 None] [] in
  generateCoin half 250 db
  = (json_message 400 "No unique combinations remaining", db).
Proof. vm_compute. reflexivity. Qed.

(** ** Registration *)

Lemma select_client_by_email_none db email :
  (forall c, In c (clients db) -> Client.email c <> email) ->
  select_client_by_email db email = None.
Proof.
  intros H. unfold select_client_by_email.
  destruct (find _ (clients db)) as [c|] eqn:Hf; [|reflexivity].
  apply find_some in Hf. destruct Hf as [Hin Heq].
  apply String.eqb_eq in Heq. now elim (H c Hin).
Qed.

Lemma select_client_by_email_some db email :
  (exists c, In c (clients db) /\ Client.email c = email) ->
  exists c, select_client_by_email db email = Some c.
Proof.
  intros (c & Hin & Heq). unfold select_client_by_email.
  destruct (find _ (clients db)) as [c'|] eqn:Hf; [now exists c'|].
  apply (find_none _ _ Hf) in Hin. apply String.eqb_neq in Hin.
  contradiction.
Qed.

(** C8: a POST to the registration route with an email that some client
    already has answers 400 and leaves the database as it was; with an
    email that no client has it answers 201 and appends exactly one client
    to the clients table, with a fresh id, the fields of the request and
    the hash of the password, the other tables being unchanged. *)
Theorem register_conflict_or_created :
  forall (bcrypt_hash : string -> string) (name email password : string)
         (phone address : option string) (db : Database),
    let resp :=
      fst (register bcrypt_hash "POST" name email password phone address db) in
    let db' :=
      snd (register bcrypt_hash "POST" name email password phone address db) in
    ((exists c, In c (clients db) /\ Client.email c = email) ->
     status resp = 400 /\ db' = db)
    /\ ((forall c, In c (clients db) -> Client.email c <> email) ->
        status resp = 201
        /\ (exists i,
              clients db'
              = clients db
                ++ [Client.mk i name email (bcrypt_hash password) phone address]
              /\ ~ In i (map Client.id (clients db)))
        /\ coins db' = coins db
        /\ transactions db' = transactions db).
Proof.
  intros bcrypt_hash name email password phone address db. cbv zeta.
  unfold register. cbn [String.eqb Ascii.eqb Bool.eqb].
  split.
  - intros Hex. destruct (select_client_by_email_some db email Hex) as [c ->].
    split; reflexivity.
  - intros Hnone. rewrite (select_client_by_email_none db email Hnone).
    cbn [fst snd status json_message insert_client clients coins transactions].
    repeat split.
    eexists. split; [reflexivity|]. apply next_rowid_fresh.
Qed.

Lemma register_conflict_or_created_witness :
  (exists c, In c (clients sample_db) /\ Client.email c = "ana@example.com")
  /\ status (fst (register (fun p => p) "POST" "Ana B" "ana@example.com"
                           "secret123" None None sample_db)) = 400
  /\ (forall c, In c (clients sample_db) -> Client.email c <> "bob@example.com")
  /\ status (fst (register (fun p => p) "POST" "Bob" "bob@example.com"
                           "secret123" None None sample_db)) = 201.
Proof.
  assert (H1 : exists c, In c (clients sample_db)
                         /\ Client.email c = "ana@example.com").
  { exists sample_client. split; [now left | reflexivity]. }
  assert (H2 : forall c, In c (clients sample_db)
                         -> Client.email c <> "bob@example.com").
  { intros c [<-|[]]. discriminate. }
  split; [exact H1|]. split.
  - apply (register_conflict_or_created (fun p => p) "Ana B" "ana@example.com"
             "secret123" None None sample_db). exact H1.
  - split; [exact H2|].
    apply (register_conflict_or_created (fun p => p) "Bob" "bob@example.com"
             "secret123" None None sample_db). exact H2.
Defined.

(** ** The method checks of the routes *)

Section Dispatch.

Variable computeBitSlow : Z -> Z -> Z -> string.
Variable bcrypt_hash : string -> string.
Variable bcrypt_compare : string -> string -> bool.
Variable now : string.
Variable rnd : nat -> Q.

Local Abbreviation serve :=
  (fetch computeBitSlow bcrypt_hash bcrypt_compare now rnd).

(** The two routes that write with any verb but POST, and the history route
    with any verb but GET, answer 405 and leave the database alone. *)
Lemma checked_routes_answer_405 (m : string) (q : Query.t) (b : JsonBody.t)
  (db : Database) :
  (m <> "POST" ->
   serve (mkRequest m "/api/register" q b) db = Some (method_not_allowed, db)
   /\ serve (mkRequest m "/api/login" q b) db = Some (method_not_allowed, db)
   /\ serve (mkRequest m "/api/buy" q b) db = Some (method_not_allowed, db)
   /\ serve (mkRequest m "/api/generate-coin" q b) db
      = Some (method_not_allowed, db))
  /\ (m <> "GET" ->
      serve (mkRequest m "/api/coin-history" q b) db
      = Some (method_not_allowed, db)).
Proof.
  split; intros Hm; apply String.eqb_neq in Hm.
  - unfold fetch, register, login, route_buy, route_generate_coin.
    cbn [pathname method String.eqb Ascii.eqb Bool.eqb json searchParams].
    rewrite Hm. cbn [negb]. repeat split.
  - unfold fetch, coinHistory.
    cbn [pathname method String.eqb Ascii.eqb Bool.eqb json searchParams].
    rewrite Hm. reflexivity.
Qed.

(** C9 (the dispatch evaluated where it departs from the statement): the
    routes of the two listings and of the profile never look at the verb.
    Whatever the method of the request, POST and DELETE included, the
    listing of the transactions and the listing of the coins are computed
    and answered with status 200, and the profile route answers what it
    answers to a GET; none of the three ever answers 405. *)
Theorem read_routes_ignore_method :
  forall (m : string) (q : Query.t) (b : JsonBody.t) (db : Database),
    serve (mkRequest m "/api/transactions" q b) db
    = Some (listTransactions computeBitSlow q db, db)
    /\ status (listTransactions computeBitSlow q db) = 200
    /\ serve (mkRequest m "/api/coins" q b) db
       = Some (listCoins computeBitSlow q db, db)
    /\ status (listCoins computeBitSlow q db) = 200
    /\ serve (mkRequest m "/api/profile" q b) db
       = Some (profile (Query.userId q) db, db)
    /\ status (profile (Query.userId q) db) <> 405.
Proof.
  intros m q b db. repeat split.
  unfold profile. destruct (Query.userId q); discriminate.
Qed.

End Dispatch.

(** ** Lists: sorting, sub-lists, joins on a key *)

Lemma string_leb_trans (s1 s2 s3 : string) :
  String.leb s1 s2 = true -> String.leb s2 s3 = true ->
  String.leb s1 s3 = true.
Proof.
  unfold String.leb. revert s2 s3.
  induction s1 as [|c1 s1 IH]; intros [|c2 s2] [|c3 s3]; cbn [String.compare];
    try easy.
  unfold Ascii.compare.
  destruct (N.compare_spec (N_of_ascii c1) (N_of_ascii c2)) as [H12|H12|H12];
    destruct (N.compare_spec (N_of_ascii c2) (N_of_ascii c3)) as [H23|H23|H23];
    destruct (N.compare_spec (N_of_ascii c1) (N_of_ascii c3)) as [H13|H13|H13];
    try easy; try (exfalso; lia).
  apply IH.
Qed.

Section Sorting.

Context {A : Type} (le : A -> A -> bool).
Hypothesis le_total : forall x y, le x y = true \/ le y x = true.
Hypothesis le_trans :
  forall x y z, le x y = true -> le y z = true -> le x z = true.

Lemma insert_by_perm (x : A) (l : list A) :
  Permutation (insert_by le x l) (x :: l).
Proof.
  induction l as [|y l IH]; cbn [insert_by]; [reflexivity|].
  destruct (le x y); [reflexivity|].
  rewrite IH. apply perm_swap.
Qed.

Lemma sort_by_perm (l : list A) : Permutation (sort_by le l) l.
Proof.
  induction l as [|x l IH]; cbn [sort_by fold_right]; [reflexivity|].
  fold (sort_by le l). rewrite insert_by_perm. now apply perm_skip.
Qed.

Lemma insert_by_sorted (x : A) (l : list A) :
  StronglySorted (fun a b => le a b = true) l ->
  StronglySorted (fun a b => le a b = true) (insert_by le x l).
Proof.
  induction 1 as [|y l Hsorted IH Hall]; cbn [insert_by].
  - repeat constructor.
  - destruct (le x y) eqn:Hxy.
    + constructor; [now constructor|].
      constructor; [assumption|].
      eapply Forall_impl; [|exact Hall].
      intros z Hyz. now apply (le_trans x y z).
    + constructor; [assumption|].
      assert (Hyx : le y x = true) by (destruct (le_total x y); congruence).
      eapply Permutation_Forall; [symmetry; apply insert_by_perm|].
      now constructor.
Qed.

Lemma sort_by_sorted (l : list A) :
  StronglySorted (fun a b => le a b = true) (sort_by le l).
Proof.
  induction l as [|x l IH]; cbn [sort_by fold_right]; [constructor|].
  now apply insert_by_sorted.
Qed.

End Sorting.

Lemma StronglySorted_map {A B : Type} (f : A -> B) (R : B -> B -> Prop)
  (l : list A) :
  StronglySorted (fun x y => R (f x) (f y)) l -> StronglySorted R (map f l).
Proof.
  induction 1 as [|x l Hs IH Hall]; cbn [map]; constructor; [assumption|].
  apply Forall_map. exact Hall.
Qed.



Lemma sql_limit_offset_incl {A : Type} (limit offset : Z) (l : list A) (x : A) :
  In x (sql_limit_offset limit offset l) -> In x l.
Proof.
  unfold sql_limit_offset. intros H.
  assert (Hskip : forall y, In y (skipn (Z.to_nat offset) l) -> In y l).
  { intros y Hy. rewrite <- (firstn_skipn (Z.to_nat offset) l).
    apply in_or_app. now right. }
  apply Hskip. destruct (limit <? 0); [assumption|].
  rewrite <- (firstn_skipn (Z.to_nat limit) (skipn (Z.to_nat offset) l)).
  apply in_or_app. now left.
Qed.


(** A filter on a unique key selects the row that [find] returns and no
    other. *)
Lemma filter_unique_key {A : Type} (key : A -> Z) (k : Z) (l : list A) :
  NoDup (map key l) ->
  filter (fun x => key x =? k) l
  = match find (fun x => key x =? k) l with
    | Some x => [x]
    | None => []
    end.
Proof.
  induction l as [|x l IH]; cbn [map filter find]; [reflexivity|].
  intros Hnd. inversion Hnd as [|? ? Hnotin Hnd']; subst.
  destruct (Z.eqb_spec (key x) k) as [Heq|Hne]; [|now apply IH].
  f_equal. rewrite IH by assumption.
  destruct (find _ l) as [y|] eqn:Hf; [|reflexivity].
  apply find_some in Hf. destruct Hf as [Hin Hy]. apply Z.eqb_eq in Hy.
  exfalso. apply Hnotin. rewrite Heq, <- Hy. now apply in_map.
Qed.

Lemma find_key_in {A : Type} (key : A -> Z) (k : Z) (l : list A) :
  (exists x, In x l /\ key x = k) ->
  exists y, find (fun x => key x =? k) l = Some y.
Proof.
  intros (x & Hin & Hk).
  destruct (find _ l) as [y|] eqn:Hf; [now exists y|].
  apply (find_none _ _ Hf) in Hin. apply Z.eqb_neq in Hin. contradiction.
Qed.

Lemma filter_flat_map {A B : Type} (p : B -> bool) (f : A -> list B)
  (l : list A) :
  filter p (flat_map f l) = flat_map (fun x => filter p (f x)) l.
Proof.
  induction l as [|x l IH]; cbn [flat_map]; [reflexivity|].
  now rewrite filter_app, IH.
Qed.

Lemma flat_map_guard {A B : Type} (p : A -> bool) (g : A -> list B)
  (l : list A) :
  flat_map (fun x => if p x then g x else []) l = flat_map g (filter p l).
Proof.
  induction l as [|x l IH]; cbn [flat_map filter]; [reflexivity|].
  rewrite IH. now destruct (p x).
Qed.

Lemma flat_map_singleton {A : Type} (l : list A) :
  flat_map (fun x => [x]) l = l.
Proof.
  induction l as [|x l IH]; cbn [flat_map]; [reflexivity|].
  now rewrite IH.
Qed.

(** [LIKE] on a few names: letters match in either case, [_] is one
    character, and a name that lacks the fragment does not match. *)
Example like_samples :
  like "%an%" "Ana" = true
  /\ like "%AN%" "Joanna" = true
  /\ like "%a_a%" "Ana" = true
  /\ like "%bob%" "Ana" = false
  /\ like_nullable "%an%" None = false.
Proof. repeat split. Qed.

Example sort_by_sample :
  sort_by (order_desc (fun s : string => s))
          ["2025-01-02"; "2025-03-01"; "2024-12-31"]%string
  = ["2025-03-01"; "2025-01-02"; "2024-12-31"]%string.
Proof. reflexivity. Qed.

Example sql_limit_offset_samples :
  sql_limit_offset 2 1 [1; 2; 3; 4] = [2; 3]
  /\ sql_limit_offset (-1) 1 [1; 2; 3; 4] = [2; 3; 4]
  /\ sql_limit_offset 2 (-3) [1; 2; 3; 4] = [1; 2].
Proof. repeat split. Qed.

(** ** The joins of the read queries on a database with unique keys *)

Lemma client_with_id_unique db i :
  client_keys_unique db ->
  client_with_id db i
  = match find_client db i with Some c => [c] | None => [] end.
Proof.
  intros Hu. apply (filter_unique_key Client.id i (clients db) Hu).
Qed.


Lemma left_join_seller_unique db t :
  client_keys_unique db -> left_join_seller db t = [seller_of db t].
Proof.
  intros Hu. unfold left_join_seller, seller_of.
  destruct (Tx.seller_id t) as [i|]; [|reflexivity].
  rewrite client_with_id_unique by assumption.
  now destruct (find_client db i).
Qed.







Lemma selectQuery_all_length q db :
  List.length (selectQuery_all q db)
  = List.length (filter (whereSql q) (tx_join db)).
Proof.
  unfold selectQuery_all. rewrite length_map.
  apply Permutation_length, sort_by_perm.
Qed.

(** ** The listing of the transactions *)

Lemma response_transactions_list cbs q db :
  response_transactions (listTransactions cbs q db)
  = sql_limit_offset (default 15 (Query.limit q))
      ((default 1 (Query.page q) - 1) * default 15 (Query.limit q))
      (selectQuery_all q db).
Proof.
  unfold listTransactions, response_transactions. cbn [body].
  rewrite map_map. cbn [fst]. apply map_id.
Qed.








Lemma sold_db_keys_and_refs :
  client_keys_unique sold_db /\ coin_keys_unique sold_db
  /\ tx_refs_buyers sold_db /\ tx_refs_coins sold_db.
Proof.
  repeat split.
  - repeat constructor; cbn; tauto.
  - repeat constructor; cbn; tauto.
  - intros t [<-|[]]. exists sample_client. split; [now left|reflexivity].
  - intros t [<-|[]]. eexists. split; [now left|reflexivity].
Defined.





(** ** The history of a coin *)

Lemma StronglySorted_weaken {A : Type} (R R' : A -> A -> Prop) (l : list A) :
  (forall x y, R x y -> R' x y) -> StronglySorted R l -> StronglySorted R' l.
Proof.
  intros Himp. induction 1 as [|x l Hs IH Hall]; constructor; [assumption|].
  eapply Forall_impl; [|exact Hall]. intros y. apply Himp.
Qed.

Lemma history_rows_sorted coin_id db :
  StronglySorted date_asc (history_rows coin_id db).
Proof.
  unfold history_rows. apply StronglySorted_map.
  eapply StronglySorted_weaken;
    [|apply (sort_by_sorted
               (order_asc (fun r : Tx.t * option Client.t * Client.t =>
                             Tx.transaction_date (fst (fst r)))))].
  - intros [[t1 s1] b1] [[t2 s2] b2] H. exact H.
  - intros x y. unfold order_asc. apply String.leb_total.
  - intros x y z. unfold order_asc. apply string_leb_trans.
Qed.

Lemma history_join_of_coin coin_id db :
  client_keys_unique db ->
  map history_columns
      (filter (fun r => Tx.coin_id (fst (fst r)) =? coin_id) (history_join db))
  = flat_map (history_entry db)
      (filter (fun t => Tx.coin_id t =? coin_id) (transactions db)).
Proof.
  intros Hu. unfold history_join.
  induction (transactions db) as [|t txs IH]; [reflexivity|].
  cbn [flat_map filter]. rewrite filter_app, map_app, IH. clear IH.
  rewrite left_join_seller_unique, client_with_id_unique by assumption.
  destruct (Tx.coin_id t =? coin_id) eqn:Hc.
  - cbn [flat_map]. f_equal. unfold history_entry.
    destruct (find_client db (Tx.buyer_id t)) as [b|];
      cbn [flat_map map app filter fst]; rewrite ?Hc; reflexivity.
  - destruct (find_client db (Tx.buyer_id t)) as [b|];
      cbn [flat_map map app filter fst]; rewrite ?Hc; reflexivity.
Qed.

Lemma history_rows_perm coin_id db :
  client_keys_unique db ->
  Permutation (history_rows coin_id db)
    (flat_map (history_entry db)
       (filter (fun t => Tx.coin_id t =? coin_id) (transactions db))).
Proof.
  intros Hu. rewrite <- (history_join_of_coin coin_id db Hu).
  unfold history_rows. apply Permutation_map, sort_by_perm.
Qed.

Lemma history_entry_ids db (txs : list Tx.t) :
  (forall t, In t txs -> exists b, In b (clients db)
                                   /\ Client.id b = Tx.buyer_id t) ->
  map HistoryRow.id (flat_map (history_entry db) txs) = map Tx.id txs.
Proof.
  induction txs as [|t txs IH]; intros Hb; [reflexivity|].
  cbn [flat_map map]. rewrite map_app, IH
    by (intros t' Ht'; apply Hb; now right).
  unfold history_entry, find_client.
  destruct (find_key_in Client.id (Tx.buyer_id t) (clients db)
              (Hb t (or_introl eq_refl))) as [b ->].
  reflexivity.
Qed.

(** C7, as stated, on the database in which the sample coin was bought
    with a buyer id that no client has: the coin has one transaction and
    its history is empty. *)
Lemma coinHistory_misses_stranger :
  filter (fun t => Tx.coin_id t =? 1) (transactions stranger_db)
  = [Tx.mk 1 1 500 noon None 99]
  /\ coinHistory "GET" (Some 1) stranger_db = mkResponse 200 (BHistory []).
Proof.
  split; reflexivity.
Qed.

(** C7, amended: on a database with unique client keys, a GET of the
    history of a coin answers 200 with one entry for each transaction of
    the coin whose buyer is a client, in ascending order of transaction
    date, the entry carrying the names of the seller and of the buyer; when
    the buyer of every transaction is a client these are exactly the
    transactions of the coin.  The page presents an entry without seller
    name as sold by the "Original Issuer". *)
Theorem coinHistory_lists_joined_transactions :
  forall (coin_id : Z) (db : Database),
    client_keys_unique db ->
    let resp := coinHistory "GET" (Some coin_id) db in
    let h := response_history resp in
    let of_coin :=
      filter (fun t => Tx.coin_id t =? coin_id) (transactions db) in
    status resp = 200
    /\ StronglySorted date_asc h
    /\ Permutation h (flat_map (history_entry db) of_coin)
    /\ (tx_refs_buyers db ->
        Permutation (map HistoryRow.id h) (map Tx.id of_coin))
    /\ (forall e, In e h ->
          HistoryRow.seller_name e = None ->
          history_line e
          = ("Original Issuer → " ++ HistoryRow.buyer_name e)%string).
Proof.
  intros coin_id db Hu. cbv zeta.
  change (coinHistory "GET" (Some coin_id) db)
    with (mkResponse 200 (BHistory (history_rows coin_id db))).
  cbn [status response_history body].
  split; [reflexivity|]. split; [apply history_rows_sorted|].
  split; [now apply history_rows_perm|]. split.
  - intros Hb. rewrite (history_rows_perm coin_id db Hu).
    rewrite history_entry_ids; [reflexivity|].
    intros t Ht. apply Hb. now apply filter_In in Ht.
  - intros e _ Hnone. unfold history_line, seller_label.
    now rewrite Hnone.
Qed.

Lemma coinHistory_lists_joined_transactions_witness :
  client_keys_unique sold_db
  /\ Permutation (response_history (coinHistory "GET" (Some 1) sold_db))
       (flat_map (history_entry sold_db)
          (filter (fun t => Tx.coin_id t =? 1) (transactions sold_db))).
Proof.
  destruct sold_db_keys_and_refs as (H1 & _).
  split; [exact H1|].
  apply (coinHistory_lists_joined_transactions 1 sold_db H1).
Defined.

(** The history of the sample coin after its sale to the client 7, and the
    line of the page for it. *)
Example coinHistory_sample :
  response_history (coinHistory "GET" (Some 1) sold_db)
  = [HistoryRow.mk 1 1 noon None "Ana"]
  /\ map history_line (response_history (coinHistory "GET" (Some 1) sold_db))
     = ["Original Issuer → Ana"%string].
Proof.
  split; reflexivity.
Qed.

(** ** The profile summary *)

Lemma sql_max_some (l : list Z) (m : Z) :
  sql_max l = Some m -> In m l /\ forall x, In x l -> x <= m.
Proof.
  revert m. induction l as [|y l IH]; cbn [sql_max fold_right]; [discriminate|].
  fold (sql_max l). intros m.
  destruct (sql_max l) as [m'|] eqn:Hm.
  - intros [= <-]. destruct (IH m' eq_refl) as [Hin Hmax]. split.
    + destruct (Z.max_spec y m') as [[_ ->]|[_ ->]]; [now right | now left].
    + intros x [<-|Hx]; [lia|]. specialize (Hmax x Hx). lia.
  - intros [= <-]. split; [now left|].
    intros x [<-|Hx]; [lia|].
    destruct l; [destruct Hx | cbn in Hm; now destruct (fold_right _ _ _)].
Qed.

Lemma sql_max_none (l : list Z) : sql_max l = None -> l = [].
Proof.
  destruct l as [|y l]; [reflexivity|].
  cbn [sql_max fold_right]. now destruct (fold_right _ _ _).
Qed.

Lemma latest_tx_none_inv (txs : list Tx.t) (coin_id : Z) :
  latest_tx txs coin_id = None ->
  forall t, In t txs -> Tx.coin_id t <> coin_id.
Proof.
  induction txs as [|t' txs IH] using rev_ind; [intros _ t []|].
  rewrite latest_tx_snoc.
  destruct (Z.eqb_spec (Tx.coin_id t') coin_id) as [Heq|Hne].
  - destruct (latest_tx txs coin_id) as [a|]; [|discriminate].
    now destruct (Tx.id a <? Tx.id t').
  - intros Hnone t Hin. apply in_app_or in Hin.
    destruct Hin as [Hin|[<-|[]]]; [now apply IH | assumption].
Qed.

Lemma latest_tx_max (txs : list Tx.t) (coin_id : Z) (a : Tx.t) :
  latest_tx txs coin_id = Some a ->
  forall t, In t txs -> Tx.coin_id t = coin_id -> Tx.id t <= Tx.id a.
Proof.
  revert a. induction txs as [|t' txs IH] using rev_ind; [discriminate|].
  intros a. rewrite latest_tx_snoc.
  destruct (Z.eqb_spec (Tx.coin_id t') coin_id) as [Heq|Hne].
  - destruct (latest_tx txs coin_id) as [b|] eqn:Hb.
    + destruct (Z.ltb_spec (Tx.id b) (Tx.id t')) as [Hlt|Hge];
        intros [= <-] t Hin Hc; apply in_app_or in Hin;
        destruct Hin as [Hin|[<-|[]]]; try lia.
      * specialize (IH b eq_refl t Hin Hc). lia.
      * now apply (IH b eq_refl).
    + intros [= <-] t Hin Hc. apply in_app_or in Hin.
      destruct Hin as [Hin|[<-|[]]]; [|lia].
      now elim (latest_tx_none_inv txs coin_id Hb t Hin).
  - intros Ha t Hin Hc. apply in_app_or in Hin.
    destruct Hin as [Hin|[<-|[]]]; [now apply (IH a) | contradiction].
Qed.

(** The sub-select [MAX(id)] of the profile query names the most recent
    transaction of the coin. *)
Lemma is_max_id_of_latest db coin_id a t :
  latest_tx (transactions db) coin_id = Some a ->
  is_max_id_of_coin db coin_id t = (Tx.id t =? Tx.id a).
Proof.
  intros Ha. unfold is_max_id_of_coin.
  destruct (latest_tx_in _ _ _ Ha) as [Hin Hc].
  assert (Hmem : In (Tx.id a)
                   (map Tx.id (filter (fun t2 => Tx.coin_id t2 =? coin_id)
                                      (transactions db)))).
  { apply in_map, filter_In. split; [assumption | now apply Z.eqb_eq]. }
  destruct (sql_max _) as [m|] eqn:Hm.
  - destruct (sql_max_some _ _ Hm) as [Hmin Hmmax].
    apply in_map_iff in Hmin. destruct Hmin as (t' & <- & Ht').
    apply filter_In in Ht'. destruct Ht' as [Ht' Hc']. apply Z.eqb_eq in Hc'.
    pose proof (latest_tx_max _ _ _ Ha t' Ht' Hc').
    pose proof (Hmmax _ Hmem).
    f_equal. lia.
  - apply sql_max_none in Hm. rewrite Hm in Hmem. destruct Hmem.
Qed.

Lemma filter_none {A : Type} (p : A -> bool) (l : list A) :
  (forall x, In x l -> p x = false) -> filter p l = [].
Proof.
  induction l as [|x l IH]; intros H; [reflexivity|].
  cbn [filter]. rewrite (H x (or_introl eq_refl)).
  apply IH. intros y Hy. apply H. now right.
Qed.

Lemma unique_key_member {A : Type} (key : A -> Z) (l : list A) (a t : A) :
  NoDup (map key l) -> In a l -> In t l -> key t = key a -> t = a.
Proof.
  induction l as [|x l IH]; [intros _ []|].
  cbn [map]. intros Hnd Ha Ht Hk.
  inversion Hnd as [|? ? Hnotin Hnd']; subst.
  destruct Ha as [->|Ha], Ht as [->|Ht]; try reflexivity.
  - exfalso. apply Hnotin. rewrite <- Hk. now apply in_map.
  - exfalso. apply Hnotin. rewrite Hk. now apply in_map.
  - now apply IH.
Qed.

Lemma filter_key_of_member {A : Type} (key : A -> Z) (l : list A) (a : A) :
  NoDup (map key l) -> In a l ->
  filter (fun x => key x =? key a) l = [a].
Proof.
  intros Hnd Hin. rewrite filter_unique_key by assumption.
  destruct (find_key_in key (key a) l) as [y Hy]; [now exists a|].
  rewrite Hy. apply find_some in Hy. destruct Hy as [Hyin Hk].
  apply Z.eqb_eq in Hk. f_equal.
  now apply (unique_key_member key l a y).
Qed.

(** The rows of the profile join for one coin: the coin once when it is
    owned by the user, no row otherwise. *)
Lemma user_coin_rows db u c :
  tx_keys_unique db ->
  filter (fun t => (Coin.coin_id c =? Tx.coin_id t)
                   && is_max_id_of_coin db (Coin.coin_id c) t
                   && (Tx.buyer_id t =? u))
         (transactions db)
  = match latest_tx (transactions db) (Coin.coin_id c) with
    | Some a => if Tx.buyer_id a =? u then [a] else []
    | None => []
    end.
Proof.
  intros Hu.
  destruct (latest_tx (transactions db) (Coin.coin_id c)) as [a|] eqn:Ha.
  - destruct (latest_tx_in _ _ _ Ha) as [Hin Hc].
    rewrite (filter_ext_in _
               (fun t => (Tx.id t =? Tx.id a) && (Tx.buyer_id a =? u))).
    + destruct (Tx.buyer_id a =? u).
      * rewrite <- (filter_key_of_member Tx.id (transactions db) a Hu Hin).
        apply filter_ext. intros t. apply andb_true_r.
      * apply filter_none. intros t _. apply andb_false_r.
    + intros t Ht. rewrite (is_max_id_of_latest db _ a t Ha).
      destruct (Z.eqb_spec (Tx.id t) (Tx.id a)) as [Hid|Hne].
      * rewrite (unique_key_member Tx.id _ a t Hu Hin Ht Hid).
        rewrite Hc, Z.eqb_refl. reflexivity.
      * now rewrite andb_false_r.
  - apply filter_none. intros t Ht.
    pose proof (latest_tx_none_inv _ _ Ha t Ht) as Hne.
    destruct (Z.eqb_spec (Coin.coin_id c) (Tx.coin_id t)); [congruence|].
    reflexivity.
Qed.

Lemma userCoinsQuery_owned db u :
  tx_keys_unique db ->
  userCoinsQuery u db = filter (owned_by db u) (coins db).
Proof.
  intros Hu. unfold userCoinsQuery.
  rewrite <- (flat_map_singleton (filter (owned_by db u) (coins db))).
  rewrite <- flat_map_guard. apply flat_map_ext. intros c.
  rewrite (user_coin_rows db u c Hu). unfold owned_by.
  destruct (latest_tx (transactions db) (Coin.coin_id c)) as [a|];
    [|reflexivity].
  now destruct (Tx.buyer_id a =? u).
Qed.




(** * Further properties of the handlers *)

(** ** The transitions of the database *)

Lemma generateCoin_inserts_free rnd amount db :
  generateCoin rnd amount db
  = (json_message 400 "No unique combinations remaining", db)
  \/ exists b1 b2 b3,
       isUsed (used_triples db) b1 b2 b3 = false
       /\ generateCoin rnd amount db
          = (json_message 201 "Coin generated successfully",
             insert_coin amount b1 b2 b3 db).
Proof.
  unfold generateCoin.
  destruct (draw_loop_exit rnd (used_triples db) (S (Z.to_nat max_attempts)) 0)
    as (a & t & Heq & Hcase); [unfold max_attempts; lia ..|].
  change (Z.of_nat 0) with 0 in Heq. change (3 * 0)%nat with 0%nat in Heq.
  rewrite Heq. destruct t as [[b1 b2] b3].
  destruct Hcase as [(Ha & i & _ & _ & _ & Hfree & _)|(Ha & _)].
  - destruct (Z.gtb_spec a max_attempts) as [Hgt|_]; [lia|].
    right. exists b1, b2, b3. split; [exact Hfree | reflexivity].
  - destruct (Z.gtb_spec a max_attempts) as [_|Hle]; [|lia].
    left. reflexivity.
Qed.

(** What a request can do to the database: nothing, or one of the three
    writes of the handlers. *)
Lemma fetch_transition computeBitSlow bcrypt_hash bcrypt_compare now rnd req
  db resp db' :
  fetch computeBitSlow bcrypt_hash bcrypt_compare now rnd req db
  = Some (resp, db') ->
  db' = db
  \/ (exists name email hashed phone address,
        select_client_by_email db email = None
        /\ db' = insert_client name email hashed phone address db)
  \/ (exists coin coin_id seller_id buyer_id,
        select_coin db coin_id = Some coin
        /\ db' = insert_transaction coin_id (Coin.value coin) now
                   seller_id buyer_id
                   (update_coins_owner buyer_id coin_id db))
  \/ (exists amount b1 b2 b3,
        isUsed (used_triples db) b1 b2 b3 = false
        /\ db' = insert_coin amount b1 b2 b3 db).
Proof.
  unfold fetch.
  destruct (pathname req =? "/api/register")%string.
  { unfold register. destruct (method req =? "POST")%string.
    - destruct (select_client_by_email db (JsonBody.email (json req)))
        as [c|] eqn:Hsel; intros [= <- <-]; [now left|].
      right. left. do 5 eexists. split; [exact Hsel | reflexivity].
    - intros [= <- <-]. now left. }
  destruct (pathname req =? "/api/transactions")%string;
    [intros [= <- <-]; now left|].
  destruct (pathname req =? "/api/login")%string;
    [intros [= <- <-]; now left|].
  destruct (pathname req =? "/api/profile")%string;
    [intros [= <- <-]; now left|].
  destruct (pathname req =? "/api/coins")%string;
    [intros [= <- <-]; now left|].
  destruct (pathname req =? "/api/buy")%string.
  { unfold route_buy. destruct (negb (method req =? "POST")%string);
      [intros [= <- <-]; now left|].
    intros [= H].
    destruct (buy_database now (JsonBody.coin_id (json req))
                (JsonBody.buyer_id (json req)) db) as [Hsame|(coin & Hsel & Hdb)].
    - rewrite H in Hsame. now left.
    - rewrite H in Hdb. right. right. left.
      do 4 eexists. split; [exact Hsel | exact Hdb]. }
  destruct (pathname req =? "/api/generate-coin")%string.
  { unfold route_generate_coin. destruct (negb (method req =? "POST")%string);
      [intros [= <- <-]; now left|].
    intros [= H].
    destruct (generateCoin_inserts_free rnd (JsonBody.amount (json req)) db)
      as [Hsame|(b1 & b2 & b3 & Hfree & Hdb)];
      rewrite H in *.
    - injection Hsame as _ ->. now left.
    - injection Hdb as _ ->. right. right. right.
      do 4 eexists. split; [exact Hfree | reflexivity]. }
  destruct (pathname req =? "/api/coin-history")%string;
    [intros [= <- <-]; now left | discriminate].
Qed.

Lemma NoDup_snoc {A : Type} (l : list A) (x : A) :
  NoDup l -> ~ In x l -> NoDup (l ++ [x]).
Proof.
  intros Hnd Hx. apply NoDup_app; [assumption | repeat constructor; easy |].
  intros a Ha [<-|[]]. contradiction.
Qed.


Lemma update_owner_core buyer_id coin_id c :
  coin_core (update_owner buyer_id coin_id c) = coin_core c.
Proof.
  unfold update_owner. now destruct (Coin.coin_id c =? coin_id).
Qed.

Lemma update_coins_same_triples buyer_id coin_id db :
  used_triples (update_coins_owner buyer_id coin_id db) = used_triples db.
Proof.
  unfold used_triples, update_coins_owner. cbn [coins].
  rewrite map_map. apply map_ext. intros c.
  unfold update_owner. now destruct (Coin.coin_id c =? coin_id).
Qed.



(** X2: Every request keeps the triples of the coins pairwise distinct and the
    emails of the clients pairwise distinct. *)
Theorem fetch_keeps_triples_and_emails_unique :
  forall computeBitSlow bcrypt_hash bcrypt_compare now rnd
         (req : Request) (db : Database) (resp : Response) (db' : Database),
    fetch computeBitSlow bcrypt_hash bcrypt_compare now rnd req db
    = Some (resp, db') ->
    (triples_unique db -> triples_unique db')
    /\ (emails_unique db -> emails_unique db').
Proof.
  intros cbs hash cmp now rnd req db resp db' Hfetch.
  unfold triples_unique, emails_unique.
  destruct (fetch_transition _ _ _ _ _ _ _ _ _ Hfetch)
    as [->|[(n & e & h & p & a & Hnone & ->)
           |[(coin & cid & s & b & _ & ->)|(am & b1 & b2 & b3 & Hfree & ->)]]].
  - split; trivial.
  - split; [trivial|]. intros Hnd.
    cbn [insert_client clients]. rewrite map_app. cbn [map Client.email].
    apply NoDup_snoc; [assumption|]. intros Hin.
    apply in_map_iff in Hin. destruct Hin as (c & Hc & Hin).
    unfold select_client_by_email in Hnone.
    apply (find_none _ _ Hnone) in Hin. apply String.eqb_neq in Hin.
    contradiction.
  - split; [|trivial]. intros Hnd.
    change (used_triples (insert_transaction cid (Coin.value coin) now s b
                            (update_coins_owner b cid db)))
      with (used_triples (update_coins_owner b cid db)).
    now rewrite update_coins_same_triples.
  - split; [|trivial]. intros Hnd.
    unfold used_triples. cbn [insert_coin coins]. rewrite map_app.
    cbn [map Coin.bit1 Coin.bit2 Coin.bit3].
    apply NoDup_snoc; [assumption|]. intros Hin.
    apply isUsed_in in Hin. unfold used_triples in Hfree. congruence.
Qed.

Lemma fetch_keeps_triples_and_emails_unique_witness :
  triples_unique lone_coin_db
  /\ triples_unique (mkDatabase [] [sample_coin; Coin.mk 2 250 51 51 51 None] []).
Proof.
  assert (H : triples_unique lone_coin_db)
    by (repeat constructor; cbn; tauto).
  split; [exact H|].
  apply (fetch_keeps_triples_and_emails_unique no_display (fun p => p)
           String.eqb noon half
           (mkRequest "POST" "/api/generate-coin" no_filter
                      (JsonBody.mk "" "" "" None None 0 0 250))
           lone_coin_db (json_message 201 "Coin generated successfully")
           (mkDatabase [] [sample_coin; Coin.mk 2 250 51 51 51 None] [])).
  - vm_compute. reflexivity.
  - exact H.
Defined.

(** X3: No request removes or rewrites a client or a transaction, and none
    removes a coin or changes the id, the value or the bits of a coin:
    each table after the request is the table before it, in order, with
    at most new rows at the end; of a coin only the owner can differ. *)
Theorem fetch_never_deletes :
  forall computeBitSlow bcrypt_hash bcrypt_compare now rnd
         (req : Request) (db : Database) (resp : Response) (db' : Database),
    fetch computeBitSlow bcrypt_hash bcrypt_compare now rnd req db
    = Some (resp, db') ->
    (exists new, clients db' = clients db ++ new)
    /\ (exists new, transactions db' = transactions db ++ new)
    /\ (exists new,
          map coin_core (coins db') = map coin_core (coins db) ++ new).
Proof.
  intros cbs hash cmp now rnd req db resp db' Hfetch.
  destruct (fetch_transition _ _ _ _ _ _ _ _ _ Hfetch)
    as [->|[(n & e & h & p & a & _ & ->)
           |[(coin & cid & s & b & _ & ->)|(am & b1 & b2 & b3 & _ & ->)]]];
    cbn [insert_client insert_transaction update_coins_owner insert_coin
         clients coins transactions].
  - repeat split; exists []; now rewrite app_nil_r.
  - split; [eexists; reflexivity|].
    split; exists []; now rewrite app_nil_r.
  - split; [exists []; now rewrite app_nil_r|].
    split; [eexists; reflexivity|].
    exists []. rewrite app_nil_r, map_map. apply map_ext.
    intros c. apply update_owner_core.
  - split; [exists []; now rewrite app_nil_r|].
    split; [exists []; now rewrite app_nil_r|].
    rewrite map_app. eexists. reflexivity.
Qed.

Lemma fetch_never_deletes_witness :
  exists new, transactions sold_db = transactions sample_db ++ new.
Proof.
  apply (fetch_never_deletes no_display (fun p => p) String.eqb noon half
           (mkRequest "POST" "/api/buy" no_filter
                      (JsonBody.mk "" "" "" None None 1 7 0))
           sample_db (json_message 200 "Coin purchased successfully") sold_db
           eq_refl).
Defined.

(** X4: A request that is answered with a status other than 200 and 201 has
    written nothing. *)
Theorem fetch_failure_writes_nothing :
  forall computeBitSlow bcrypt_hash bcrypt_compare now rnd
         (req : Request) (db : Database) (resp : Response) (db' : Database),
    fetch computeBitSlow bcrypt_hash bcrypt_compare now rnd req db
    = Some (resp, db') ->
    status resp <> 200 -> status resp <> 201 ->
    db' = db.
Proof.
  intros cbs hash cmp now rnd req db resp db'. unfold fetch.
  destruct (pathname req =? "/api/register")%string.
  { unfold register. destruct (method req =? "POST")%string;
      [destruct (select_client_by_email db (JsonBody.email (json req)))|];
      intros [= <- <-] H200 H201; try reflexivity.
    now elim H201. }
  destruct (pathname req =? "/api/transactions")%string;
    [now intros [= <- <-]|].
  destruct (pathname req =? "/api/login")%string; [now intros [= <- <-]|].
  destruct (pathname req =? "/api/profile")%string; [now intros [= <- <-]|].
  destruct (pathname req =? "/api/coins")%string; [now intros [= <- <-]|].
  destruct (pathname req =? "/api/buy")%string.
  { unfold route_buy, buy. destruct (negb (method req =? "POST")%string);
      [now intros [= <- <-]|].
    destruct (select_coin db (JsonBody.coin_id (json req))) as [coin|];
      [|now intros [= <- <-]].
    destruct (js_truthy _ && js_strict_eq _ _); intros [= <- <-] H200 H201;
      [reflexivity | now elim H200]. }
  destruct (pathname req =? "/api/generate-coin")%string.
  { unfold route_generate_coin. destruct (negb (method req =? "POST")%string);
      [now intros [= <- <-]|].
    intros [= H] H200 H201.
    destruct (generateCoin_inserts_free rnd (JsonBody.amount (json req)) db)
      as [Hsame|(b1 & b2 & b3 & _ & Hdb)]; rewrite H in *.
    - injection Hsame as _ ->. reflexivity.
    - injection Hdb as Hr _. rewrite Hr in H201. now elim H201. }
  destruct (pathname req =? "/api/coin-history")%string;
    [now intros [= <- <-] | discriminate].
Qed.

Lemma fetch_failure_writes_nothing_witness :
  snd (buy noon 5 7 sample_db) = sample_db.
Proof.
  apply (fetch_failure_writes_nothing no_display (fun p => p) String.eqb noon
           half
           (mkRequest "POST" "/api/buy" no_filter
                      (JsonBody.mk "" "" "" None None 5 7 0))
           sample_db (json_message 404 "Coin not found")
           (snd (buy noon 5 7 sample_db)) eq_refl);
    discriminate.
Defined.

(** ** Purchases *)

Lemma buy_again_nonzero_buyer_witness :
  select_coin sample_db 1 = Some sample_coin
  /\ Coin.client_id sample_coin <> Some 7
  /\ 7 <> 0
  /\ buy evening 1 7 sold_db
     = (json_message 400 "This coin is already yours", sold_db).
Proof.
  assert (H1 : select_coin sample_db 1 = Some sample_coin) by reflexivity.
  assert (H2 : Coin.client_id sample_coin <> Some 7) by discriminate.
  assert (H3 : 7 <> 0) by discriminate.
  split; [exact H1|]. split; [exact H2|]. split; [exact H3|].
  apply (buy_again_nonzero_buyer noon evening 1 7 sample_db sample_coin
           H1 H2 H3).
Defined.

(** X6: In a ledger where every coin is owned by the buyer of its most recent
    transaction, the purchase of a coin whose recorded owner is not the id
    0 appends a transaction whose seller is the buyer of the most recent
    transaction of the coin so far (null on the first sale), whose amount
    is the value of the coin and whose date is the clock of the call. *)
Theorem buy_seller_is_previous_buyer :
  forall (now : string) (db : Database) (coin_id buyer_id : Z) (coin : Coin.t),
    owner_invariant db ->
    select_coin db coin_id = Some coin ->
    Coin.client_id coin <> Some buyer_id ->
    Coin.client_id coin <> Some 0 ->
    exists t,
      transactions (snd (buy now coin_id buyer_id db))
      = transactions db ++ [t]
      /\ Tx.seller_id t
         = option_map Tx.buyer_id (latest_tx (transactions db) coin_id)
      /\ Tx.buyer_id t = buyer_id
      /\ Tx.coin_id t = coin_id
      /\ Tx.amount t = Coin.value coin
      /\ Tx.transaction_date t = now.
Proof.
  intros now db coin_id buyer_id coin Hinv Hsel Hown Hnz.
  destruct (buy_cases_nonzero_owner now coin_id buyer_id db coin Hsel Hnz)
    as [_ Hbuy].
  rewrite (Hbuy Hown). cbn [snd insert_transaction transactions
                             update_coins_owner].
  eexists. split; [reflexivity|]. cbn.
  destruct (select_coin_id _ _ _ Hsel) as [Hin <-].
  repeat split. now apply Hinv.
Qed.

Lemma buy_seller_is_previous_buyer_witness :
  owner_invariant sold_db
  /\ select_coin sold_db 1 = Some (Coin.mk 1 500 3 77 42 (Some 7))
  /\ exists t,
       transactions (snd (buy evening 1 9 sold_db))
       = transactions sold_db ++ [t]
       /\ Tx.seller_id t = Some 7.
Proof.
  assert (H1 : owner_invariant sold_db) by (intros c [<-|[]]; reflexivity).
  assert (H2 : select_coin sold_db 1 = Some (Coin.mk 1 500 3 77 42 (Some 7)))
    by reflexivity.
  split; [exact H1|]. split; [exact H2|].
  destruct (buy_seller_is_previous_buyer evening sold_db 1 9
              (Coin.mk 1 500 3 77 42 (Some 7)) H1 H2)
    as (t & Ht & Hs & _); [discriminate | discriminate |].
  exists t. split; [exact Ht | exact Hs].
Defined.

(** ** Registration and login *)

Lemma find_snoc_first {A : Type} (p : A -> bool) (l : list A) (x : A) :
  find p l = None -> p x = true -> find p (l ++ [x]) = Some x.
Proof.
  induction l as [|y l IH]; cbn [find app]; intros Hnone Hx.
  - now rewrite Hx.
  - destruct (p y); [discriminate | now apply IH].
Qed.

(** X7: Registration followed by login: a POST to the registration route with
    an email that no client has, then a POST to the login route with the
    same email and a password that bcrypt accepts against the stored hash,
    answers 200 with the id that the registration gave to the new client
    and with its name; a password that bcrypt rejects against the stored
    hash answers 401. *)
Theorem register_then_login :
  forall (bcrypt_hash : string -> string)
         (bcrypt_compare : string -> string -> bool)
         (name email password : string) (phone address : option string)
         (db : Database),
    (forall c, In c (clients db) -> Client.email c <> email) ->
    let db' :=
      snd (register bcrypt_hash "POST" name email password phone address db) in
    (forall attempt,
       bcrypt_compare attempt (bcrypt_hash password) = true ->
       login bcrypt_compare "POST" email attempt db'
       = mkResponse 200
           (BLogin "Login successful."
                   (next_rowid (map Client.id (clients db))) name))
    /\ (forall attempt,
          bcrypt_compare attempt (bcrypt_hash password) = false ->
          login bcrypt_compare "POST" email attempt db'
          = json_message 401 "Incorrect password.").
Proof.
  intros hash cmp name email password phone address db Hnew. cbv zeta.
  unfold register. cbn [String.eqb Ascii.eqb Bool.eqb].
  rewrite (select_client_by_email_none db email Hnew). cbn [snd].
  assert (Hfind :
    select_client_by_email
      (insert_client name email (hash password) phone address db) email
    = Some (Client.mk (next_rowid (map Client.id (clients db)))
                      name email (hash password) phone address)).
  { unfold select_client_by_email. cbn [insert_client clients].
    apply find_snoc_first.
    - apply (select_client_by_email_none db email Hnew).
    - cbn. apply String.eqb_refl. }
  split; intros attempt Hcmp; unfold login;
    cbn [String.eqb Ascii.eqb Bool.eqb]; rewrite Hfind;
    cbn [Client.password Client.id Client.name]; now rewrite Hcmp.
Qed.

Lemma register_then_login_witness :
  (forall c, In c (clients sample_db) -> Client.email c <> "bob@example.com")
  /\ login String.eqb "POST" "bob@example.com" "secret123"
       (snd (register (fun p => p) "POST" "Bob" "bob@example.com" "secret123"
                      None None sample_db))
     = mkResponse 200 (BLogin "Login successful." 8 "Bob").
Proof.
  assert (H : forall c, In c (clients sample_db)
                        -> Client.email c <> "bob@example.com").
  { intros c [<-|[]]. discriminate. }
  split; [exact H|].
  apply (register_then_login (fun p => p) String.eqb "Bob" "bob@example.com"
           "secret123" None None sample_db H).
  reflexivity.
Defined.

Lemma find_unique_key_string (l : list Client.t) (c : Client.t) :
  NoDup (map Client.email l) -> In c l ->
  find (fun x => (Client.email x =? Client.email c)%string) l = Some c.
Proof.
  induction l as [|y l IH]; [intros _ []|].
  cbn [map find]. intros Hnd Hin.
  inversion Hnd as [|? ? Hnotin Hnd']; subst.
  destruct (String.eqb_spec (Client.email y) (Client.email c)) as [Heq|Hne].
  - destruct Hin as [->|Hin]; [reflexivity|].
    exfalso. apply Hnotin. rewrite Heq. now apply in_map.
  - destruct Hin as [->|Hin]; [congruence | now apply IH].
Qed.

(** X8: With pairwise distinct emails, a POST to the login route with the email
    of a client of the database identifies that client: 200 with its id
    and its name when bcrypt accepts the password against its stored hash,
    401 otherwise; an email of no client answers 404; no verb but POST
    gets past the method check. *)
Theorem login_identifies_client :
  forall (bcrypt_compare : string -> string -> bool) (db : Database),
    emails_unique db ->
    (forall c password,
       In c (clients db) ->
       login bcrypt_compare "POST" (Client.email c) password db
       = if bcrypt_compare password (Client.password c)
         then mkResponse 200 (BLogin "Login successful."
                                     (Client.id c) (Client.name c))
         else json_message 401 "Incorrect password.")
    /\ (forall email password,
          (forall c, In c (clients db) -> Client.email c <> email) ->
          login bcrypt_compare "POST" email password db
          = json_message 404 "User not found.")
    /\ (forall m email password,
          m <> "POST" ->
          login bcrypt_compare m email password db = method_not_allowed).
Proof.
  intros cmp db Hu. split; [|split].
  - intros c password Hin. unfold login, select_client_by_email.
    cbn [String.eqb Ascii.eqb Bool.eqb].
    now rewrite (find_unique_key_string (clients db) c Hu Hin).
  - intros email password Hnone. unfold login.
    cbn [String.eqb Ascii.eqb Bool.eqb].
    now rewrite (select_client_by_email_none db email Hnone).
  - intros m email password Hm. unfold login.
    apply String.eqb_neq in Hm. now rewrite Hm.
Qed.

Lemma login_identifies_client_witness :
  emails_unique sample_db
  /\ login String.eqb "POST" "ana@example.com" "$2a$10$hash" sample_db
     = mkResponse 200 (BLogin "Login successful." 7 "Ana").
Proof.
  assert (H : emails_unique sample_db) by (repeat constructor; cbn; tauto).
  split; [exact H|].
  destruct (login_identifies_client String.eqb sample_db H) as [Hlogin _].
  apply (Hlogin sample_client "$2a$10$hash"). now left.
Defined.

(** ** The generator on a full table *)

(** X9: Once every triple with components in 1..100 is the triple of a coin,
    the generation of a coin answers 400 and inserts nothing, whatever the
    random source with values in [0,1) returns. *)
Theorem generateCoin_full_space :
  forall (rnd : nat -> Q) (amount : Z) (db : Database),
    (forall k, (0 <= rnd k)%Q /\ (rnd k < 1)%Q) ->
    (forall b1 b2 b3,
       1 <= b1 <= 100 -> 1 <= b2 <= 100 -> 1 <= b3 <= 100 ->
       In (b1, b2, b3) (used_triples db)) ->
    generateCoin rnd amount db
    = (json_message 400 "No unique combinations remaining", db).
Proof.
  intros rnd amount db Hrnd Hfull. unfold generateCoin.
  destruct (draw_loop_exit rnd (used_triples db) (S (Z.to_nat max_attempts)) 0)
    as (a & t & Heq & Hcase); [unfold max_attempts; lia ..|].
  change (Z.of_nat 0) with 0 in Heq. change (3 * 0)%nat with 0%nat in Heq.
  rewrite Heq.
  destruct Hcase as [(Ha & i & _ & _ & Ht & Hfree & _)|(Ha & _)].
  - exfalso. pose proof (draw_triple_range rnd i Hrnd) as Hrange.
    rewrite <- Ht in Hrange. destruct t as [[b1 b2] b3].
    destruct Hrange as (H1 & H2 & H3).
    pose proof (Hfull b1 b2 b3 H1 H2 H3) as Hin.
    apply isUsed_in in Hin. unfold triple_used in Hfree. congruence.
  - destruct t as [[b1 b2] b3].
    destruct (Z.gtb_spec a max_attempts) as [_|Hle]; [reflexivity | lia].
Qed.

Lemma bits_range_in (b : Z) : 1 <= b <= 100 -> In b bits_range.
Proof.
  intros Hb. unfold bits_range. apply in_map_iff.
  exists (Z.to_nat b). split; [lia|]. apply in_seq. lia.
Qed.

Lemma all_triples_db_full (b1 b2 b3 : Z) :
  1 <= b1 <= 100 -> 1 <= b2 <= 100 -> 1 <= b3 <= 100 ->
  In (b1, b2, b3) (used_triples all_triples_db).
Proof.
  intros H1 H2 H3. unfold used_triples, all_triples_db. cbn [coins].
  apply in_map_iff. exists (Coin.mk 0 0 b1 b2 b3 None).
  split; [reflexivity|].
  apply in_flat_map. exists b1. split; [now apply bits_range_in|].
  apply in_flat_map. exists b2. split; [now apply bits_range_in|].
  apply in_map_iff. exists b3. split; [reflexivity | now apply bits_range_in].
Defined.

Lemma generateCoin_full_space_witness :
  (forall k, (0 <= half k)%Q /\ (half k < 1)%Q)
  /\ generateCoin half 500 all_triples_db
     = (json_message 400 "No unique combinations remaining", all_triples_db).
Proof.
  assert (H : forall k, (0 <= half k)%Q /\ (half k < 1)%Q).
  { intros k. unfold half. split; [discriminate|reflexivity]. }
  split; [exact H|].
  apply (generateCoin_full_space half 500 all_triples_db H
           all_triples_db_full).
Defined.

(** ** The profile, the coins table and the purchases *)




(** X11: A user who is the buyer of no transaction and the seller of none has
    the profile 0, 0, 0; a request without userId answers 400. *)
Theorem profile_of_stranger :
  forall (u : Z) (db : Database),
    (forall t, In t (transactions db) ->
       Tx.buyer_id t <> u /\ Tx.seller_id t <> Some u) ->
    profile (Some u) db = mkResponse 200 (BProfile 0 0 0)
    /\ profile None db = json_message 400 "Missing userId parameter.".
Proof.
  intros u db Hnone. split; [|reflexivity].
  unfold profile, totalTransactionsQuery, userCoinsQuery, sql_count.
  rewrite (filter_none (fun t => (Tx.buyer_id t =? u)
                                 || js_strict_eq (Tx.seller_id t) u)).
  - assert (Hrows :
      flat_map (fun c =>
        map (fun _ : Tx.t => c)
          (filter (fun t => (Coin.coin_id c =? Tx.coin_id t)
                            && is_max_id_of_coin db (Coin.coin_id c) t
                            && (Tx.buyer_id t =? u)) (transactions db)))
        (coins db) = []).
    { induction (coins db) as [|c l IH]; [reflexivity|].
      cbn [flat_map]. rewrite IH, app_nil_r.
      rewrite filter_none; [reflexivity|].
      intros t Ht. destruct (Hnone t Ht) as [Hb _].
      apply Z.eqb_neq in Hb. rewrite Hb. apply andb_false_r. }
    rewrite Hrows. reflexivity.
  - intros t Ht. destruct (Hnone t Ht) as [Hb Hs].
    apply Z.eqb_neq in Hb. rewrite Hb. cbn [orb].
    destruct (Tx.seller_id t) as [s|]; [|reflexivity]. cbn.
    apply Z.eqb_neq. congruence.
Qed.

Lemma profile_of_stranger_witness :
  (forall t, In t (transactions sold_db) ->
     Tx.buyer_id t <> 9 /\ Tx.seller_id t <> Some 9)
  /\ profile (Some 9) sold_db = mkResponse 200 (BProfile 0 0 0).
Proof.
  assert (H : forall t, In t (transactions sold_db) ->
                Tx.buyer_id t <> 9 /\ Tx.seller_id t <> Some 9).
  { intros t [<-|[]]. split; discriminate. }
  split; [exact H|].
  apply (profile_of_stranger 9 sold_db H).
Defined.

Lemma buy_keeps_tx_keys now coin_id buyer_id db :
  tx_keys_unique db -> tx_keys_unique (snd (buy now coin_id buyer_id db)).
Proof.
  intros Hu.
  destruct (buy_database now coin_id buyer_id db) as [->|(coin & _ & ->)];
    [assumption|].
  unfold tx_keys_unique.
  cbn [insert_transaction update_coins_owner transactions].
  rewrite map_app. cbn [map Tx.id].
  apply NoDup_snoc; [assumption | apply next_rowid_fresh].
Qed.

(** X12: A purchase and the profiles: after a successful purchase, in a ledger
    with unique transaction ids, the profile query of the buyer returns
    the coin, and the profile query of any other user returns no coin with
    that id. *)
Theorem buy_then_profile :
  forall (now : string) (db : Database) (coin_id u : Z) (coin : Coin.t),
    tx_keys_unique db ->
    select_coin db coin_id = Some coin ->
    Coin.client_id coin <> Some u ->
    let db' := snd (buy now coin_id u db) in
    In (update_owner u coin_id coin) (userCoinsQuery u db')
    /\ (forall v c, v <> u -> In c (userCoinsQuery v db') ->
                    Coin.coin_id c <> coin_id).
Proof.
  intros now db coin_id u coin Hu Hsel Hown. cbv zeta.
  pose proof (buy_keeps_tx_keys now coin_id u db Hu) as Hu'.
  rewrite (buy_purchase _ _ _ _ coin Hsel (conflict_test_false _ _ Hown)) in *.
  cbn [snd] in *.
  destruct (select_coin_id _ _ _ Hsel) as [Hin Hid].
  assert (Hlatest : forall c,
    Coin.coin_id c = coin_id ->
    forall v,
      owned_by (insert_transaction coin_id (Coin.value coin) now
                  (js_or_null (Coin.client_id coin)) u
                  (update_coins_owner u coin_id db)) v c
      = (u =? v)).
  { intros c Hc v. unfold owned_by.
    cbn [insert_transaction transactions update_coins_owner].
    rewrite latest_tx_appended by reflexivity.
    cbn [Tx.coin_id Tx.buyer_id]. now rewrite Hc, Z.eqb_refl. }
  split.
  - rewrite (userCoinsQuery_owned _ u Hu'). apply filter_In. split.
    + cbn [insert_transaction coins update_coins_owner]. now apply in_map.
    + rewrite Hlatest; [apply Z.eqb_refl|].
      now rewrite update_owner_coin_id.
  - intros v c Hv Hc Hcid.
    rewrite (userCoinsQuery_owned _ v Hu') in Hc. apply filter_In in Hc.
    destruct Hc as [_ Hc]. rewrite (Hlatest c Hcid v) in Hc.
    apply Z.eqb_eq in Hc. congruence.
Qed.

Lemma buy_then_profile_witness :
  tx_keys_unique sample_db
  /\ select_coin sample_db 1 = Some sample_coin
  /\ Coin.client_id sample_coin <> Some 7
  /\ In (update_owner 7 1 sample_coin) (userCoinsQuery 7 sold_db).
Proof.
  assert (H1 : tx_keys_unique sample_db) by constructor.
  assert (H2 : select_coin sample_db 1 = Some sample_coin) by reflexivity.
  assert (H3 : Coin.client_id sample_coin <> Some 7) by discriminate.
  split; [exact H1|]. split; [exact H2|]. split; [exact H3|].
  apply (buy_then_profile noon sample_db 1 7 sample_coin H1 H2 H3).
Defined.

(** ** The listing of the coins *)

Lemma sql_limit_offset_map {A B : Type} (f : A -> B) (limit offset : Z)
  (l : list A) :
  sql_limit_offset limit offset (map f l)
  = map f (sql_limit_offset limit offset l).
Proof.
  unfold sql_limit_offset. rewrite skipn_map.
  destruct (limit <? 0); [reflexivity | apply firstn_map].
Qed.

Lemma response_coins_list cbs q db :
  response_coins (listCoins cbs q db)
  = sql_limit_offset (default 30 (Query.limit q))
      ((default 1 (Query.page q) - 1) * default 30 (Query.limit q))
      (map (coin_row db)
           (sort_by (fun x y => Coin.coin_id x <=? Coin.coin_id y) (coins db))).
Proof.
  unfold listCoins, response_coins. cbn [body].
  rewrite map_map. cbn [fst]. apply map_id.
Qed.




(** ** Walking the pages *)





Lemma page_nonempty_iff {A : Type} (k n : nat) (l : list A) :
  (0 < n)%nat ->
  firstn n (skipn k l) <> [] <-> (k < List.length l)%nat.
Proof.
  intros Hn. split.
  - intros Hne. destruct (Nat.lt_ge_cases k (List.length l)) as [Hlt|Hge];
      [assumption|].
    rewrite skipn_all2, firstn_nil in Hne by assumption. now elim Hne.
  - intros Hlt Hnil.
    assert (Hlen : List.length (firstn n (skipn k l)) = 0%nat)
      by now rewrite Hnil.
    rewrite length_firstn, length_skipn in Hlen. lia.
Qed.

(** X15: The Next button of both listings: on a page of at least 1 with a limit
    above 0 and the total of the current response, the button is enabled
    exactly when the next page has a row to show; and Prev never leads
    below page 1. *)
Theorem next_button_iff_more_rows :
  forall (computeBitSlow : Z -> Z -> Z -> string) (q : Query.t) (db : Database)
         (page limit : Z),
    1 <= page -> 0 < limit ->
    let here := set_paging (Some page) (Some limit) q in
    let there := set_paging (Some (next_page page)) (Some limit) q in
    (forall total,
       response_total (listTransactions computeBitSlow here db) = Some total ->
       (next_disabled page limit total = false <->
        response_transactions (listTransactions computeBitSlow there db) <> []))
    /\ (forall total,
          response_coins_total (listCoins computeBitSlow here db) = Some total ->
          (next_disabled page limit total = false <->
           response_coins (listCoins computeBitSlow there db) <> []))
    /\ 1 <= prev_page page.
Proof.
  intros cbs q db page limit Hpage Hlimit. cbv zeta.
  assert (Hoff : Z.to_nat ((next_page page - 1) * limit)
                 = Z.to_nat (page * limit))
    by (unfold next_page; f_equal; lia).
  assert (Hn : (0 < Z.to_nat limit)%nat) by lia.
  assert (Hdis : forall total,
    next_disabled page limit total = false <-> page * limit < total).
  { intros total. unfold next_disabled. rewrite Z.geb_leb.
    destruct (Z.leb_spec total (page * limit)); split; intros; try lia;
      congruence. }
  split; [|split; [|unfold prev_page; lia]].
  - intros total Htotal. rewrite response_transactions_list.
    unfold listTransactions, response_total in Htotal. cbn [body] in Htotal.
    injection Htotal as <-.
    change (selectQuery_all (set_paging (Some (next_page page)) (Some limit) q) db)
      with (selectQuery_all q db).
    change (countQuery (set_paging (Some page) (Some limit) q) db)
      with (countQuery q db).
    cbn [set_paging Query.page Query.limit default].
    unfold sql_limit_offset.
    destruct (Z.ltb_spec limit 0) as [Hneg|_]; [lia|].
    rewrite Hoff, page_nonempty_iff, Hdis by assumption.
    unfold countQuery, sql_count. rewrite <- selectQuery_all_length. nia.
  - intros total Htotal. rewrite response_coins_list.
    unfold listCoins, response_coins_total in Htotal. cbn [body] in Htotal.
    injection Htotal as <-.
    cbn [set_paging Query.page Query.limit default].
    unfold sql_limit_offset.
    destruct (Z.ltb_spec limit 0) as [Hneg|_]; [lia|].
    rewrite Hoff, page_nonempty_iff, Hdis by assumption.
    unfold sql_count.
    rewrite length_map, (Permutation_length (sort_by_perm _ (coins db))). nia.
Qed.

Lemma next_button_iff_more_rows_witness :
  1 <= 1 /\ 0 < 15 /\ 1 <= prev_page 1.
Proof.
  assert (H1 : 1 <= 1) by lia.
  assert (H2 : 0 < 15) by lia.
  split; [exact H1|]. split; [exact H2|].
  apply (next_button_iff_more_rows no_display no_filter sold_db 1 15 H1 H2).
Defined.

(** ** Filters that are empty, filters that are absent *)





(** ** The rows of the listing of transactions and the ledger *)

Lemma tx_join_origin db (r : JoinRow) :
  In r (tx_join db) ->
  In (jr_t r) (transactions db)
  /\ In (jr_buyer r) (clients db)
  /\ Client.id (jr_buyer r) = Tx.buyer_id (jr_t r)
  /\ In (jr_c r) (coins db)
  /\ Coin.coin_id (jr_c r) = Tx.coin_id (jr_t r)
  /\ (Tx.seller_id (jr_t r) = None -> jr_seller r = None).
Proof.
  unfold tx_join. intros Hr.
  apply in_flat_map in Hr. destruct Hr as (t & Ht & Hr).
  apply in_flat_map in Hr. destruct Hr as (s & Hs & Hr).
  apply in_flat_map in Hr. destruct Hr as (b & Hb & Hr).
  apply in_map_iff in Hr. destruct Hr as (c & <- & Hc).
  apply filter_In in Hb. destruct Hb as [Hb Hbid]. apply Z.eqb_eq in Hbid.
  apply filter_In in Hc. destruct Hc as [Hc Hcid]. apply Z.eqb_eq in Hcid.
  cbn [jr_t jr_buyer jr_c jr_seller]. repeat split; try assumption.
  intros Hnone. unfold left_join_seller in Hs. rewrite Hnone in Hs.
  destruct Hs as [<-|[]]. reflexivity.
Qed.

(** X18: Every row of a listing of transactions comes from the ledger: it
    carries the id, the coin, the amount, the date and the buyer of a
    transaction of the database, the name of a client that has the id of
    that buyer, and the bits and the value of a coin that has the id of
    that coin; when the transaction has no seller, the seller columns are
    null and the table of the page shows "Original Issuer". *)
Theorem listTransactions_rows_from_ledger :
  forall (computeBitSlow : Z -> Z -> Z -> string) (q : Query.t) (db : Database)
         (r : TxRow.t),
    In r (response_transactions (listTransactions computeBitSlow q db)) ->
    exists t buyer coin,
      In t (transactions db) /\ In buyer (clients db) /\ In coin (coins db)
      /\ Client.id buyer = Tx.buyer_id t
      /\ Coin.coin_id coin = Tx.coin_id t
      /\ TxRow.id r = Tx.id t
      /\ TxRow.coin_id r = Tx.coin_id t
      /\ TxRow.amount r = Tx.amount t
      /\ TxRow.transaction_date r = Tx.transaction_date t
      /\ TxRow.buyer_id r = Tx.buyer_id t
      /\ TxRow.buyer_name r = Client.name buyer
      /\ TxRow.value r = Coin.value coin
      /\ (TxRow.bit1 r, TxRow.bit2 r, TxRow.bit3 r)
         = (Coin.bit1 coin, Coin.bit2 coin, Coin.bit3 coin)
      /\ (Tx.seller_id t = None ->
          TxRow.seller_id r = None /\ TxRow.seller_name r = None
          /\ seller_cell r = "Original Issuer").
Proof.
  intros cbs q db r Hr. rewrite response_transactions_list in Hr.
  apply sql_limit_offset_incl in Hr. unfold selectQuery_all in Hr.
  apply in_map_iff in Hr. destruct Hr as (jr & <- & Hjr).
  eapply Permutation_in in Hjr; [|apply sort_by_perm].
  apply filter_In in Hjr. destruct Hjr as [Hjr _].
  destruct (tx_join_origin db jr Hjr) as (Ht & Hb & Hbid & Hc & Hcid & Hs).
  exists (jr_t jr), (jr_buyer jr), (jr_c jr).
  unfold select_columns. cbn.
  repeat split; try assumption; try (now rewrite Hbid);
    rewrite (Hs H); reflexivity.
Qed.

Lemma listTransactions_rows_from_ledger_witness :
  In (TxRow.mk 1 1 500 noon None None 7 "Ana" 3 77 42 500)
     (response_transactions (listTransactions no_display no_filter sold_db))
  /\ exists t, In t (transactions sold_db) /\ Tx.id t = 1.
Proof.
  assert (H : In (TxRow.mk 1 1 500 noon None None 7 "Ana" 3 77 42 500)
                (response_transactions
                   (listTransactions no_display no_filter sold_db)))
    by (now left).
  split; [exact H|].
  destruct (listTransactions_rows_from_ledger no_display no_filter sold_db _ H)
    as (t & _ & _ & Ht & _ & _ & _ & _ & Hid & _).
  exists t. split; [exact Ht | symmetry; exact Hid].
Defined.

(** ** The owner name of a coin *)

Lemma owner_name_none_iff db coin_id :
  owner_name db coin_id = None
  <-> flat_map (fun t => map (fun buyer => (t, buyer))
                             (client_with_id db (Tx.buyer_id t)))
               (filter (fun t => Tx.coin_id t =? coin_id) (transactions db))
      = [].
Proof.
  unfold owner_name.
  match goal with
  | |- context [sort_by ?le ?l] =>
      pose proof (sort_by_perm le l) as Hperm;
      destruct (sort_by le l) as [|r rest]
  end.
  - apply Permutation_nil in Hperm. rewrite Hperm. tauto.
  - split; [discriminate|]. intros Hnil. rewrite Hnil in Hperm.
    symmetry in Hperm. apply Permutation_nil in Hperm. discriminate.
Qed.

(** X19: The two owner columns of the listing of the coins agree on who has no
    owner: in a ledger where every coin is owned by the buyer of its most
    recent transaction and every buyer is a client, the owner name of a
    coin is null exactly when its owner id is null, and the page then
    shows "Unowned". *)
Theorem owner_name_null_iff_unowned :
  forall (db : Database) (c : Coin.t),
    owner_invariant db ->
    tx_refs_buyers db ->
    In c (coins db) ->
    (CoinRow.owner_name (coin_row db c) = None
     <-> CoinRow.client_id (coin_row db c) = None)
    /\ (CoinRow.client_id (coin_row db c) = None ->
        owner_cell (coin_row db c) = "Unowned").
Proof.
  intros db c Hinv Hrefs Hc.
  assert (Hiff : owner_name db (Coin.coin_id c) = None
                 <-> Coin.client_id c = None).
  { rewrite owner_name_none_iff, (Hinv c Hc). split.
    - intros Hnil. rewrite latest_tx_none; [reflexivity|].
      intros t Ht Hcid.
      assert (Hin : In t (filter (fun t => Tx.coin_id t =? Coin.coin_id c)
                                 (transactions db)))
        by (apply filter_In; split; [assumption | now apply Z.eqb_eq]).
      destruct (Hrefs t Ht) as (b & Hb & Hbid).
      assert (Hjoin : In (t, b)
                (flat_map (fun t => map (fun buyer => (t, buyer))
                                        (client_with_id db (Tx.buyer_id t)))
                   (filter (fun t => Tx.coin_id t =? Coin.coin_id c)
                           (transactions db)))).
      { apply in_flat_map. exists t. split; [assumption|].
        apply in_map. apply filter_In. split; [assumption|].
        now apply Z.eqb_eq. }
      rewrite Hnil in Hjoin. destruct Hjoin.
    - intros Hnone.
      destruct (latest_tx (transactions db) (Coin.coin_id c)) as [a|] eqn:Ha;
        [discriminate|].
      rewrite filter_none; [reflexivity|].
      intros t Ht. apply Z.eqb_neq.
      now apply (latest_tx_none_inv _ _ Ha). }
  cbn [coin_row CoinRow.owner_name CoinRow.client_id].
  split; [exact Hiff|].
  intros Hnone. apply Hiff in Hnone. unfold owner_cell, name_or.
  cbn [coin_row CoinRow.owner_name]. now rewrite Hnone.
Qed.

Lemma owner_name_null_iff_unowned_witness :
  owner_invariant sample_db /\ tx_refs_buyers sample_db
  /\ In sample_coin (coins sample_db)
  /\ owner_cell (coin_row sample_db sample_coin) = "Unowned".
Proof.
  assert (H1 : owner_invariant sample_db)
    by (intros c [<-|[]]; reflexivity).
  assert (H2 : tx_refs_buyers sample_db) by (intros t []).
  assert (H3 : In sample_coin (coins sample_db)) by (now left).
  split; [exact H1|]. split; [exact H2|]. split; [exact H3|].
  destruct (owner_name_null_iff_unowned sample_db sample_coin H1 H2 H3)
    as [_ Hcell].
  apply Hcell. reflexivity.
Defined.

Lemma sort_by_snoc_first {A : Type} (le : A -> A -> bool) (l : list A) (x : A) :
  (forall y, In y l -> le y x = false) ->
  sort_by le (l ++ [x]) = x :: sort_by le l.
Proof.
  induction l as [|y l IH]; intros Hlate; [reflexivity|].
  cbn [app sort_by fold_right]. fold (sort_by le (l ++ [x])) (sort_by le l).
  rewrite IH by (intros z Hz; apply Hlate; now right).
  cbn [insert_by]. now rewrite (Hlate y (or_introl eq_refl)).
Qed.

Lemma owner_name_after_buy now db coin_id (b : Client.t) coin :
  client_keys_unique db ->
  In b (clients db) ->
  select_coin db coin_id = Some coin ->
  Coin.client_id coin <> Some (Client.id b) ->
  later_than_coin_dates db coin_id now ->
  let db' := snd (buy now coin_id (Client.id b) db) in
  owner_name db' coin_id = Some (Client.name b)
  /\ (forall other, other <> coin_id ->
        owner_name db' other = owner_name db other).
Proof.
  intros Hu Hb Hsel Hown Hlate. cbv zeta.
  rewrite (buy_purchase _ _ _ _ coin Hsel (conflict_test_false _ _ Hown)).
  cbn [snd]. unfold owner_name, client_with_id.
  cbn [insert_transaction update_coins_owner transactions clients].
  split.
  - rewrite filter_app, flat_map_app. cbn [filter Tx.coin_id].
    rewrite Z.eqb_refl. cbn [flat_map Tx.buyer_id]. rewrite app_nil_r.
    rewrite (filter_key_of_member Client.id (clients db) b Hu Hb).
    cbn [map]. rewrite sort_by_snoc_first; [reflexivity|].
    intros [t c] Hin. unfold order_desc. cbn [fst Tx.transaction_date].
    apply in_flat_map in Hin. destruct Hin as (t' & Ht' & Hin).
    apply in_map_iff in Hin. destruct Hin as (c' & [= <- <-] & _).
    apply filter_In in Ht'. destruct Ht' as [Ht' Hcid].
    apply Z.eqb_eq in Hcid. now apply Hlate.
  - intros other Hne. rewrite filter_app. cbn [filter Tx.coin_id].
    apply Z.eqb_neq in Hne. rewrite (Z.eqb_sym coin_id), Hne in *.
    now rewrite app_nil_r.
Qed.

(** X20: A purchase and the listing of the coins: when the buyer is a client,
    client ids are unique and the clock of the call is later than the date
    of every transaction of the coin, the listing after the purchase shows
    the name of the buyer as owner name of the coin, and the owner name of
    every other coin as before. *)
Theorem buy_then_owner_name :
  forall (now : string) (db : Database) (coin_id : Z) (b : Client.t)
         (coin : Coin.t),
    client_keys_unique db ->
    In b (clients db) ->
    select_coin db coin_id = Some coin ->
    Coin.client_id coin <> Some (Client.id b) ->
    later_than_coin_dates db coin_id now ->
    let db' := snd (buy now coin_id (Client.id b) db) in
    (forall c', In c' (coins db') -> Coin.coin_id c' = coin_id ->
       coin_row db' c'
       = CoinRow.mk coin_id (Coin.value c') (Coin.bit1 c') (Coin.bit2 c')
                    (Coin.bit3 c') (Some (Client.id b)) (Some (Client.name b)))
    /\ (forall c, In c (coins db) -> Coin.coin_id c <> coin_id ->
          In c (coins db') /\ coin_row db' c = coin_row db c).
Proof.
  intros now db coin_id b coin Hu Hb Hsel Hown Hlate. cbv zeta.
  destruct (owner_name_after_buy now db coin_id b coin Hu Hb Hsel Hown Hlate)
    as [Hname Hother].
  rewrite (buy_purchase _ _ _ _ coin Hsel (conflict_test_false _ _ Hown)) in *.
  cbn [snd] in *. split.
  - intros c' Hc' Hid. unfold coin_row. rewrite Hid, Hname.
    cbn [insert_transaction update_coins_owner coins] in Hc'.
    apply in_map_iff in Hc'. destruct Hc' as (c & <- & _).
    rewrite update_owner_coin_id in Hid. unfold update_owner.
    apply Z.eqb_eq in Hid. rewrite Hid. reflexivity.
  - intros c Hc Hne. split.
    + cbn [insert_transaction update_coins_owner coins].
      apply in_map_iff. exists c. split; [|assumption].
      unfold update_owner. apply Z.eqb_neq in Hne. now rewrite Hne.
    + unfold coin_row. now rewrite (Hother _ Hne).
Qed.

Lemma buy_then_owner_name_witness :
  client_keys_unique sample_db
  /\ In sample_client (clients sample_db)
  /\ later_than_coin_dates sample_db 1 noon
  /\ coin_row sold_db (Coin.mk 1 500 3 77 42 (Some 7))
     = CoinRow.mk 1 500 3 77 42 (Some 7) (Some "Ana").
Proof.
  assert (H1 : client_keys_unique sample_db)
    by (repeat constructor; cbn; tauto).
  assert (H2 : In sample_client (clients sample_db)) by (now left).
  assert (H3 : select_coin sample_db 1 = Some sample_coin) by reflexivity.
  assert (H4 : Coin.client_id sample_coin <> Some (Client.id sample_client))
    by discriminate.
  assert (H5 : later_than_coin_dates sample_db 1 noon) by (intros t []).
  split; [exact H1|]. split; [exact H2|]. split; [exact H5|].
  destruct (buy_then_owner_name noon sample_db 1 sample_client sample_coin
              H1 H2 H3 H4 H5) as [Hrow _].
  apply (Hrow (Coin.mk 1 500 3 77 42 (Some 7))); [now left | reflexivity].
Defined.

(** ** The marketplace page and the server *)

Lemma insert_by_map {A : Type} (le : A -> A -> bool) (f : A -> A) (x : A)
  (l : list A) :
  (forall a b, le (f a) (f b) = le a b) ->
  insert_by le (f x) (map f l) = map f (insert_by le x l).
Proof.
  intros Hle. induction l as [|y l IH]; [reflexivity|].
  cbn [map insert_by]. rewrite Hle.
  destruct (le x y); cbn [map]; [reflexivity | now rewrite IH].
Qed.

Lemma sort_by_map {A : Type} (le : A -> A -> bool) (f : A -> A) (l : list A) :
  (forall a b, le (f a) (f b) = le a b) ->
  sort_by le (map f l) = map f (sort_by le l).
Proof.
  intros Hle. induction l as [|x l IH]; [reflexivity|].
  cbn [map sort_by fold_right]. fold (sort_by le (map f l)) (sort_by le l).
  rewrite IH. now apply insert_by_map.
Qed.

Lemma response_coin_rows_list cbs q db :
  response_coin_rows (listCoins cbs q db)
  = map (fun coin => (coin, cbs (CoinRow.bit1 coin) (CoinRow.bit2 coin)
                                (CoinRow.bit3 coin)))
      (sql_limit_offset (default 30 (Query.limit q))
         ((default 1 (Query.page q) - 1) * default 30 (Query.limit q))
         (map (coin_row db)
              (sort_by (fun x y => Coin.coin_id x <=? Coin.coin_id y)
                       (coins db)))).
Proof.
  reflexivity.
Qed.

(** X21: The update of the page after a purchase and the server: when the
    logged-in user is a client of the database (the page holds its id and
    its name), client ids are unique and the clock of the purchase is
    later than the date of every transaction of the coin, the list of
    coins that the page builds for itself after the 200 is the list that
    the same request to the listing of the coins returns after the
    purchase. *)
Theorem mark_bought_matches_refetch :
  forall (computeBitSlow : Z -> Z -> Z -> string) (now : string) (q : Query.t)
         (db : Database) (coin_id : Z) (b : Client.t) (coin : Coin.t),
    client_keys_unique db ->
    In b (clients db) ->
    select_coin db coin_id = Some coin ->
    Coin.client_id coin <> Some (Client.id b) ->
    later_than_coin_dates db coin_id now ->
    let db' := snd (buy now coin_id (Client.id b) db) in
    mark_bought (Some (Client.id b)) (Some (Client.name b)) coin_id
      (response_coin_rows (listCoins computeBitSlow q db))
    = response_coin_rows (listCoins computeBitSlow q db').
Proof.
  intros cbs now q db coin_id b coin Hu Hb Hsel Hown Hlate. cbv zeta.
  destruct (owner_name_after_buy now db coin_id b coin Hu Hb Hsel Hown Hlate)
    as [Hname Hother].
  rewrite !response_coin_rows_list.
  rewrite (buy_purchase _ _ _ _ coin Hsel (conflict_test_false _ _ Hown)) in *.
  cbn [snd] in *.
  cbn [insert_transaction update_coins_owner coins].
  rewrite sort_by_map
    by (intros x y; now rewrite !update_owner_coin_id).
  unfold mark_bought. rewrite !map_map.
  rewrite <- !sql_limit_offset_map, !map_map.
  f_equal. apply map_ext. intros c. cbn [fst snd].
  unfold coin_row at 1 2 3 4 5 6.
  cbn [CoinRow.coin_id CoinRow.value CoinRow.bit1 CoinRow.bit2 CoinRow.bit3].
  unfold coin_row, update_owner.
  destruct (Z.eqb_spec (Coin.coin_id c) coin_id) as [Heq|Hne];
    cbn [Coin.coin_id Coin.value Coin.bit1 Coin.bit2 Coin.bit3 Coin.client_id
         CoinRow.bit1 CoinRow.bit2 CoinRow.bit3].
  - now rewrite Heq, Hname.
  - now rewrite (Hother _ Hne).
Qed.

Lemma mark_bought_matches_refetch_witness :
  client_keys_unique sample_db
  /\ In sample_client (clients sample_db)
  /\ later_than_coin_dates sample_db 1 noon
  /\ mark_bought (Some 7) (Some "Ana") 1
       (response_coin_rows (listCoins no_display no_filter sample_db))
     = response_coin_rows (listCoins no_display no_filter sold_db).
Proof.
  assert (H1 : client_keys_unique sample_db)
    by (repeat constructor; cbn; tauto).
  assert (H2 : In sample_client (clients sample_db)) by (now left).
  assert (H3 : select_coin sample_db 1 = Some sample_coin) by reflexivity.
  assert (H4 : Coin.client_id sample_coin <> Some (Client.id sample_client))
    by discriminate.
  assert (H5 : later_than_coin_dates sample_db 1 noon) by (intros t []).
  split; [exact H1|]. split; [exact H2|]. split; [exact H5|].
  apply (mark_bought_matches_refetch no_display noon no_filter sample_db 1
           sample_client sample_coin H1 H2 H3 H4 H5).
Defined.

Lemma select_coin_of_member db c :
  coin_keys_unique db -> In c (coins db) ->
  select_coin db (Coin.coin_id c) = Some c.
Proof.
  intros Hu Hc. unfold select_coin.
  destruct (find_key_in Coin.coin_id (Coin.coin_id c) (coins db)) as [y Hy];
    [now exists c|].
  rewrite Hy. apply find_some in Hy. destruct Hy as [Hyin Hk].
  apply Z.eqb_eq in Hk. f_equal.
  now apply (unique_key_member Coin.coin_id (coins db) c y).
Qed.

(** X22: The Buy button and the server: for a logged-in user with an id other
    than 0 and a row of a coin of the database (coin ids unique), the page
    shows the Buy button exactly when the purchase would be answered 200,
    and shows "Owned" exactly when it would be refused as "already yours";
    the request of the button carries the id of the coin and of the user.
    Without a user, or with the id 0, a click sends no request. *)
Theorem buy_button_matches_server :
  forall (now : string) (db : Database) (c : Coin.t) (u : Z),
    coin_keys_unique db ->
    In c (coins db) ->
    u <> 0 ->
    handleBuy_request (Some u) (coin_row db c) = Some (Coin.coin_id c, u)
    /\ (shows_buy_button (Some u) (coin_row db c) = true
        <-> status (fst (buy now (Coin.coin_id c) u db)) = 200)
    /\ (shows_buy_button (Some u) (coin_row db c) = false
        <-> fst (buy now (Coin.coin_id c) u db)
            = json_message 400 "This coin is already yours")
    /\ handleBuy_request None (coin_row db c) = None
    /\ handleBuy_request (Some 0) (coin_row db c) = None.
Proof.
  intros now db c u Hu Hc Hnz.
  pose proof (select_coin_of_member db c Hu Hc) as Hsel.
  assert (Htruthy : js_truthy (Some u) = true).
  { cbn. apply Z.eqb_neq in Hnz. now rewrite Hnz. }
  split; [unfold handleBuy_request; now rewrite Htruthy|].
  unfold shows_buy_button. rewrite Htruthy.
  cbn [coin_row CoinRow.client_id andb].
  destruct (Coin.client_id c) as [o|] eqn:Hown.
  - destruct (Z.eqb_spec o u) as [->|Hne].
    + rewrite (buy_conflict now _ u db c Hsel)
        by (rewrite Hown; now apply conflict_test_true).
      cbn. rewrite Z.eqb_refl. cbn.
      repeat split; try reflexivity; discriminate.
    + rewrite (buy_purchase now _ u db c Hsel)
        by (rewrite Hown; apply conflict_test_false; congruence).
      cbn. apply Z.eqb_neq in Hne. rewrite Hne. cbn.
      repeat split; try reflexivity; discriminate.
  - rewrite (buy_purchase now _ u db c Hsel)
      by (rewrite Hown; reflexivity).
    cbn. repeat split; try reflexivity; discriminate.
Qed.

Lemma buy_button_matches_server_witness :
  coin_keys_unique sold_db
  /\ In (Coin.mk 1 500 3 77 42 (Some 7)) (coins sold_db)
  /\ 7 <> 0
  /\ handleBuy_request (Some 7) (coin_row sold_db (Coin.mk 1 500 3 77 42 (Some 7)))
     = Some (1, 7).
Proof.
  assert (H1 : coin_keys_unique sold_db) by (repeat constructor; cbn; tauto).
  assert (H2 : In (Coin.mk 1 500 3 77 42 (Some 7)) (coins sold_db))
    by (now left).
  assert (H3 : 7 <> 0) by discriminate.
  split; [exact H1|]. split; [exact H2|]. split; [exact H3|].
  apply (buy_button_matches_server noon sold_db
           (Coin.mk 1 500 3 77 42 (Some 7)) 7 H1 H2 H3).
Defined.

(** ** The sign-up form *)

Lemma nullable_lang (r : regex) : nullable r = true <-> lang r [].
Proof.
  induction r as [| |p|r IHr s IHs|r IHr s IHs|r IHr]; cbn [nullable].
  - split; [discriminate | intros H; inversion H].
  - split; [constructor | reflexivity].
  - split; [discriminate | intros H; inversion H].
  - rewrite andb_true_iff, IHr, IHs. split.
    + intros [Hr Hs]. apply (lang_cat r s [] [] Hr Hs).
    + intros H. inversion H as [| |? ? u v Hu Hv| | | |]; subst.
      match goal with
      | Heq : u ++ v = [] |- _ =>
          apply app_eq_nil in Heq; destruct Heq as [-> ->]
      end.
      now split.
  - rewrite orb_true_iff, IHr, IHs. split.
    + intros [H|H]; [now apply lang_alt_l | now apply lang_alt_r].
    + intros H. inversion H; subst; [now left | now right].
  - split; [constructor | reflexivity].
Qed.

Lemma lang_deriv (c : N) (r : regex) (x : JsString) :
  lang r x -> forall w, x = c :: w -> lang (deriv c r) w.
Proof.
  induction 1 as [|p c' Hp|r s u v Hu IHu Hv IHv|r s u Hu IHu|r s u Hu IHu
                 |r|r u v Hu IHu Hv IHv]; intros w Hx; cbn [deriv].
  - discriminate.
  - injection Hx as -> <-. rewrite Hp. constructor.
  - destruct u as [|c0 u].
    + cbn [app] in Hx. apply nullable_lang in Hu. rewrite Hu.
      apply lang_alt_r. now apply IHv.
    + cbn [app] in Hx. injection Hx as -> <-.
      assert (Hcat : lang (Cat (deriv c r) s) (u ++ v))
        by (apply lang_cat; [now apply IHu | assumption]).
      destruct (nullable r); [now apply lang_alt_l | assumption].
  - apply lang_alt_l. now apply IHu.
  - apply lang_alt_r. now apply IHu.
  - discriminate.
  - destruct u as [|c0 u].
    + cbn [app] in Hx. now apply IHv.
    + cbn [app] in Hx. injection Hx as -> <-.
      apply lang_cat; [now apply IHu | assumption].
Qed.

Lemma deriv_lang (c : N) (r : regex) :
  forall w, lang (deriv c r) w -> lang r (c :: w).
Proof.
  induction r as [| |p|r IHr s IHs|r IHr s IHs|r IHr]; intros w; cbn [deriv].
  - intros H. inversion H.
  - intros H. inversion H.
  - destruct (p c) eqn:Hp; intros H; inversion H; subst.
    now apply lang_class.
  - assert (Hcat : forall x, lang (Cat (deriv c r) s) x -> lang (Cat r s) (c :: x)).
    { intros x H. inversion H as [| |? ? u v Hu Hv| | | |]; subst.
      apply (lang_cat r s (c :: u) v); [now apply IHr | assumption]. }
    destruct (nullable r) eqn:Hn; [|apply Hcat].
    intros H. inversion H as [| | |? ? u Hu|? ? u Hu| |]; subst.
    + now apply Hcat.
    + apply nullable_lang in Hn.
      apply (lang_cat r s [] (c :: w) Hn). now apply IHs.
  - intros H. inversion H; subst;
      [apply lang_alt_l; now apply IHr | apply lang_alt_r; now apply IHs].
  - intros H. inversion H as [| |? ? u v Hu Hv| | | |]; subst.
    apply (lang_star_cons r (c :: u) v); [now apply IHr | assumption].
Qed.

Lemma regex_test_lang (r : regex) (w : JsString) :
  regex_test r w = true <-> lang r w.
Proof.
  unfold regex_test. revert r.
  induction w as [|c w IH]; intros r; cbn [fold_left].
  - apply nullable_lang.
  - rewrite IH. split; [apply deriv_lang|].
    intros H. now apply (lang_deriv c r (c :: w)).
Qed.

Lemma lang_star_class (p : N -> bool) (w : JsString) :
  lang (Star (Class p)) w <-> Forall (fun c => p c = true) w.
Proof.
  split.
  - intros H. remember (Star (Class p)) as r eqn:Hr.
    induction H as [| | | | |r|r u v Hu _ Hv IHv]; try discriminate.
    + constructor.
    + injection Hr as ->. inversion Hu; subst.
      constructor; [assumption | now apply IHv].
  - induction 1 as [|c w Hc _ IH]; [constructor|].
    apply (lang_star_cons (Class p) [c] w); [now constructor | assumption].
Qed.

Lemma lang_plus_class (p : N -> bool) (w : JsString) :
  lang (plus (Class p)) w <-> w <> [] /\ Forall (fun c => p c = true) w.
Proof.
  unfold plus. split.
  - intros H. inversion H as [| |? ? u v Hu Hv| | | |]; subst.
    inversion Hu; subst. apply lang_star_class in Hv.
    split; [discriminate | now constructor].
  - intros [Hne Hall]. destruct w as [|c w]; [now elim Hne|].
    inversion Hall; subst.
    apply (lang_cat (Class p) (Star (Class p)) [c] w);
      [now constructor | now apply lang_star_class].
Qed.

Lemma validateEmail_shape (email : JsString) :
  validateEmail email = true <-> email_shape email.
Proof.
  unfold validateEmail, email_shape, email_regex. rewrite regex_test_lang.
  split.
  - intros H.
    inversion H as [| |? ? l r1 Hl H1| | | |]; subst.
    inversion H1 as [| |? ? a r2 Ha H2| | | |]; subst.
    inversion H2 as [| |? ? d r3 Hd H3| | | |]; subst.
    inversion H3 as [| |? ? f t Hf Ht| | | |]; subst.
    inversion Ha as [|? ca Hca| | | | |]; subst.
    inversion Hf as [|? cf Hcf| | | | |]; subst.
    apply N.eqb_eq in Hca, Hcf. subst.
    apply lang_plus_class in Hl, Hd, Ht.
    destruct Hl as [Hl Hlall], Hd as [Hd Hdall], Ht as [Ht Htall].
    exists l, d, t. repeat split; try assumption.
    apply Forall_app. split; [assumption|].
    apply Forall_app. now split.
  - intros (l & d & t & -> & Hl & Hd & Ht & Hall).
    apply Forall_app in Hall. destruct Hall as [Hlall Hall].
    apply Forall_app in Hall. destruct Hall as [Hdall Htall].
    apply lang_cat; [now apply lang_plus_class|].
    apply (lang_cat _ _ [at_sign]); [constructor; apply N.eqb_refl|].
    apply lang_cat; [now apply lang_plus_class|].
    apply (lang_cat _ _ [full_stop]); [constructor; apply N.eqb_refl|].
    now apply lang_plus_class.
Qed.

(** X23: The sign-up form posts to the registration route exactly when the name
    is not empty, the password has at least 8 code units and the email has
    the shape something@something.something with no space and no further
    at sign; the email that is posted then holds exactly one at sign and no
    white space. *)
Theorem signup_posts_only_valid_input :
  forall (name email password phone address : JsString),
    (signup_submit name email password phone address
     = SignUpPost name email password phone address
     <-> name <> [] /\ (8 <= List.length password)%nat /\ email_shape email)
    /\ (signup_submit name email password phone address
        = SignUpPost name email password phone address ->
        count_occ N.eq_dec email at_sign = 1%nat
        /\ Forall (fun c => is_space c = false) email).
Proof.
  intros name email password phone address.
  assert (Hiff :
    signup_submit name email password phone address
    = SignUpPost name email password phone address
    <-> name <> [] /\ (8 <= List.length password)%nat /\ email_shape email).
  { unfold signup_submit. split.
    - destruct name as [|n name]; [discriminate|].
      destruct email as [|e email]; [discriminate|].
      destruct password as [|p password]; [discriminate|].
      cbn [js_empty orb].
      destruct (validateEmail (e :: email)) eqn:Hv; [|discriminate].
      cbn [negb].
      destruct (Nat.ltb_spec (List.length (p :: password)) 8) as [|Hlen];
        [discriminate|].
      intros _. split; [discriminate|]. split; [assumption|].
      now apply validateEmail_shape.
    - intros (Hname & Hlen & Hshape).
      pose proof Hshape as Hv. apply validateEmail_shape in Hv.
      destruct name as [|n name]; [now elim Hname|].
      destruct Hshape as (l & d & t & -> & Hl & _).
      destruct l as [|c l]; [now elim Hl|].
      destruct password as [|p password]; [cbn in Hlen; lia|].
      cbn [js_empty orb app]. cbn [app] in Hv. rewrite Hv. cbn [negb].
      destruct (Nat.ltb_spec (List.length (p :: password)) 8) as [Hlt|_];
        [lia | reflexivity]. }
  split; [exact Hiff|].
  intros Hpost. apply Hiff in Hpost.
  destruct Hpost as (_ & _ & l & d & t & -> & _ & _ & _ & Hall).
  assert (Hplain : forall w,
    Forall (fun c => not_space_nor_at c = true) w ->
    count_occ N.eq_dec w at_sign = 0%nat
    /\ Forall (fun c => is_space c = false) w).
  { induction 1 as [|c w Hc _ [IHn IHs]]; [split; [reflexivity|constructor]|].
    unfold not_space_nor_at in Hc. apply andb_prop in Hc.
    destruct Hc as [Hs Ha]. apply negb_true_iff in Hs, Ha.
    apply N.eqb_neq in Ha. split.
    - rewrite count_occ_cons_neq by assumption. exact IHn.
    - now constructor. }
  apply Forall_app in Hall. destruct Hall as [Hl Hall].
  apply Forall_app in Hall. destruct Hall as [Hd Ht].
  destruct (Hplain l Hl) as [Hln Hls], (Hplain d Hd) as [Hdn Hds],
    (Hplain t Ht) as [Htn Hts].
  split.
  - rewrite count_occ_app, Hln. cbn [count_occ].
    destruct (N.eq_dec at_sign at_sign) as [_|Hne]; [|now elim Hne].
    rewrite count_occ_app, Hdn. cbn [count_occ].
    destruct (N.eq_dec full_stop at_sign) as [Heq|_]; [discriminate|].
    now rewrite Htn.
  - apply Forall_app. split; [assumption|].
    constructor; [reflexivity|].
    apply Forall_app. split; [assumption|].
    constructor; [reflexivity | assumption].
Qed.

(** The pattern of the form on a few emails. *)
Example validateEmail_samples :
  validateEmail (code_units "ana@example.com") = true
  /\ validateEmail (code_units "a.b@c.d.e") = true
  /\ validateEmail (code_units "ana@example") = false
  /\ validateEmail (code_units "ana@@example.com") = false
  /\ validateEmail (code_units "an a@example.com") = false
  /\ validateEmail (code_units "@example.com") = false
  /\ validateEmail (code_units "ana@.com") = false
  /\ validateEmail (code_units "ana@example.") = false.
Proof. repeat split; vm_compute; reflexivity. Qed.

(** ** The history of a coin and its owner *)



Lemma sorted_last_max {A : Type} (R : A -> A -> Prop) (l : list A) (x d : A) :
  StronglySorted R l -> In x l -> x = last l d \/ R x (last l d).
Proof.
  induction 1 as [|y l Hs IH Hall]; [intros []|].
  intros Hin. destruct l as [|z l].
  - destruct Hin as [->|[]]. now left.
  - change (last (y :: z :: l) d) with (last (z :: l) d).
    destruct Hin as [<-|Hin]; [|now apply IH].
    right. rewrite Forall_forall in Hall. apply Hall.
    destruct (exists_last (l := z :: l)) as (l' & e & Heq); [discriminate|].
    rewrite Heq, last_last. apply in_or_app. right. now left.
Qed.

Lemma history_join_member db (r : Tx.t * option Client.t * Client.t) :
  In r (history_join db) ->
  In (fst (fst r)) (transactions db)
  /\ In (snd r) (clients db)
  /\ Client.id (snd r) = Tx.buyer_id (fst (fst r)).
Proof.
  unfold history_join. intros Hr.
  apply in_flat_map in Hr. destruct Hr as (t & Ht & Hr).
  apply in_flat_map in Hr. destruct Hr as (s & Hs & Hr).
  apply in_map_iff in Hr. destruct Hr as (b & <- & Hb).
  apply filter_In in Hb. destruct Hb as [Hb Hid]. apply Z.eqb_eq in Hid.
  cbn [fst snd]. now repeat split.
Qed.

Lemma history_join_of_tx db (t : Tx.t) (b : Client.t) :
  In t (transactions db) -> In b (clients db) ->
  Client.id b = Tx.buyer_id t ->
  exists s, In (t, s, b) (history_join db).
Proof.
  intros Ht Hb Hid.
  assert (Hs : exists s, In s (left_join_seller db t)).
  { unfold left_join_seller.
    destruct (match Tx.seller_id t with
              | Some i => client_with_id db i
              | None => []
              end) as [|c l]; [exists None | exists (Some c)]; now left. }
  destruct Hs as [s Hs]. exists s. unfold history_join.
  apply in_flat_map. exists t. split; [assumption|].
  apply in_flat_map. exists s. split; [assumption|].
  apply in_map. apply filter_In. split; [assumption | now apply Z.eqb_eq].
Qed.

(** X25: Replaying the history of a coin: in a ledger in the order of time,
    with unique transaction and client ids, where every buyer is a client
    and every coin is owned by the buyer of its most recent transaction,
    the history of a coin without owner is empty, and the last entry of
    the history of a coin with an owner carries the name of the client
    whose id is in the owner column of the coin. *)
Theorem history_ends_with_owner :
  forall (db : Database) (c : Coin.t),
    owner_invariant db ->
    chronological db ->
    tx_keys_unique db ->
    client_keys_unique db ->
    tx_refs_buyers db ->
    In c (coins db) ->
    match Coin.client_id c with
    | None => history_rows (Coin.coin_id c) db = []
    | Some u =>
        exists init e b,
          history_rows (Coin.coin_id c) db = init ++ [e]
          /\ In b (clients db) /\ Client.id b = u
          /\ HistoryRow.buyer_name e = Client.name b
    end.
Proof.
  intros db c Hinv Hch Htx Hcl Hrefs Hc.
  rewrite (Hinv c Hc).
  destruct (latest_tx (transactions db) (Coin.coin_id c)) as [a|] eqn:Ha;
    cbn [option_map].
  - destruct (latest_tx_in _ _ _ Ha) as [Hain Hacoin].
    destruct (Hrefs a Hain) as (b & Hb & Hbid).
    destruct (history_join_of_tx db a b Hain Hb Hbid) as [s Hjoin].
    unfold history_rows.
    set (key := fun r : Tx.t * option Client.t * Client.t =>
                  Tx.transaction_date (fst (fst r))).
    set (selected := filter (fun r => Tx.coin_id (fst (fst r)) =? Coin.coin_id c)
                            (history_join db)).
    assert (Hsel : In (a, s, b) selected).
    { apply filter_In. split; [assumption|]. cbn [fst]. now apply Z.eqb_eq. }
    assert (Hin : In (a, s, b) (sort_by (order_asc key) selected))
      by (eapply Permutation_in; [symmetry; apply sort_by_perm | exact Hsel]).
    assert (Hsorted : StronglySorted (fun x y => order_asc key x y = true)
                        (sort_by (order_asc key) selected)).
    { apply sort_by_sorted.
      - intros x y. unfold order_asc. apply String.leb_total.
      - intros x y z. unfold order_asc. apply string_leb_trans. }
    destruct (exists_last (l := sort_by (order_asc key) selected))
      as (init & z & Heq); [intros Hnil; now rewrite Hnil in Hin|].
    pose proof (sorted_last_max _ _ (a, s, b) z Hsorted Hin) as Hmax.
    rewrite Heq, last_last in Hmax.
    assert (Hz : In z selected).
    { eapply Permutation_in; [apply sort_by_perm|].
      rewrite Heq. apply in_or_app. right. now left. }
    apply filter_In in Hz. destruct Hz as [Hzjoin Hzcoin].
    apply Z.eqb_eq in Hzcoin.
    destruct (history_join_member db z Hzjoin) as (Hzt & Hzb & Hzid).
    assert (Hta : fst (fst z) = a).
    { destruct Hmax as [<-|Hle]; [reflexivity|].
      pose proof (latest_tx_max _ _ _ Ha _ Hzt Hzcoin) as Hidle.
      destruct (Z.eq_dec (Tx.id (fst (fst z))) (Tx.id a)) as [Hid|Hne].
      - now apply (unique_key_member Tx.id (transactions db) a _ Htx Hain Hzt).
      - exfalso. unfold order_asc, key in Hle. cbn [fst] in Hle.
        rewrite (Hch (fst (fst z)) a Hzt Hain) in Hle;
          [discriminate | congruence | lia]. }
    exists (map history_columns init), (history_columns z), b.
    rewrite Heq, map_app. cbn [map].
    split; [reflexivity|]. split; [assumption|]. split; [assumption|].
    assert (Hzb' : snd z = b).
    { apply (unique_key_member Client.id (clients db) b (snd z) Hcl Hb Hzb).
      rewrite Hzid, Hta. now symmetry. }
    destruct z as [[t s'] b']. cbn [snd] in Hzb'. subst b'. reflexivity.
  - assert (Hnil : filter (fun t => Tx.coin_id t =? Coin.coin_id c)
                          (transactions db) = []).
    { apply filter_none. intros t Ht. apply Z.eqb_neq.
      now apply (latest_tx_none_inv _ _ Ha). }
    pose proof (history_rows_perm (Coin.coin_id c) db Hcl) as Hperm.
    rewrite Hnil in Hperm. cbn [flat_map] in Hperm.
    symmetry in Hperm. now apply Permutation_nil in Hperm.
Qed.

Lemma history_ends_with_owner_witness :
  owner_invariant sold_db /\ chronological sold_db
  /\ tx_keys_unique sold_db /\ client_keys_unique sold_db
  /\ tx_refs_buyers sold_db
  /\ exists init e b,
       history_rows 1 sold_db = init ++ [e]
       /\ In b (clients sold_db) /\ Client.id b = 7
       /\ HistoryRow.buyer_name e = Client.name b.
Proof.
  assert (H1 : owner_invariant sold_db) by (intros c [<-|[]]; reflexivity).
  assert (H2 : chronological sold_db).
  { intros t1 t2 [<-|[]] [<-|[]] _ Hlt. cbn in Hlt. lia. }
  assert (H3 : tx_keys_unique sold_db) by (repeat constructor; cbn; tauto).
  destruct sold_db_keys_and_refs as (H4 & _ & H5 & _).
  split; [exact H1|]. split; [exact H2|]. split; [exact H3|].
  split; [exact H4|]. split; [exact H5|].
  apply (history_ends_with_owner sold_db (Coin.mk 1 500 3 77 42 (Some 7))
           H1 H2 H3 H4 H5).
  now left.
Defined.

Lemma signup_posts_only_valid_input_witness :
  signup_submit (code_units "Ana") (code_units "ana@example.com")
                (code_units "secret123") [] []
  = SignUpPost (code_units "Ana") (code_units "ana@example.com")
               (code_units "secret123") [] []
  /\ count_occ N.eq_dec (code_units "ana@example.com") at_sign = 1%nat.
Proof.
  assert (H : signup_submit (code_units "Ana") (code_units "ana@example.com")
                            (code_units "secret123") [] []
              = SignUpPost (code_units "Ana") (code_units "ana@example.com")
                           (code_units "secret123") [] [])
    by (vm_compute; reflexivity).
  split; [exact H|].
  destruct (signup_posts_only_valid_input (code_units "Ana")
              (code_units "ana@example.com") (code_units "secret123") [] [])
    as [_ Hposted].
  destruct (Hposted H) as [Hcount _]. exact Hcount.
Defined.
